(** * DSA signing and verification of jsrsasign (dsa-2.0.js)

    A shallow embedding of [KJUR.crypto.DSA] (dsa-2.0.js): the key
    object with its fields, [setPrivate], [setPublic],
    [signWithMessageHash], [verifyWithMessageHash] and
    [parseASN1Signature], written in a small state-and-exception monad
    over the key object and the random source.

    The collaborators the file calls but does not define (the [BigInteger]
    class, the random integer generator of [KJUR.crypto.Util] and the
    ASN.1 helpers [KJUR.asn1.ASN1Util.jsonToASN1HEX] and
    [ASN1HEX.getVbyList]) are modelled from the natural-language
    specification; each such definition says so in its doc comment. *)

From Stdlib Require Import ZArith List String Ascii Bool Lia QArith.
Import ListNotations.

Local Open Scope string_scope.
Local Open Scope list_scope.
Local Open Scope Z_scope.

(** ** JavaScript values used by the file *)

(** A JavaScript number that arises from dividing two integers, kept exact
    as a rational ([q.bitLength() / 4] is a multiple of one quarter, which a
    double represents exactly). *)
Definition js_div (a : Z) (b : positive) : Q := Qmake a b.

(** [ToIntegerOrInfinity] on a finite number: truncation towards zero. *)
Definition ToInteger (x : Q) : Z := Z.quot (Qnum x) (Zpos (Qden x)).

(** [String.prototype.substr(0, length)]: the first [ToInteger length]
    characters (all of the string when it is shorter, none when the count
    is not positive). *)
Definition substr0 (s : string) (length : Q) : string :=
  String.substring 0 (Z.to_nat (ToInteger length)) s.

(** [String.prototype.substr(start, length)]: a negative [start] counts
    from the end of the string; the result is what the string holds of
    [length] characters from there, nothing when [length] is not
    positive. *)
Definition substr (s : string) (start length : Z) : string :=
  let size := Z.of_nat (String.length s) in
  let from := if start <? 0 then Z.max (size + start) 0 else start in
  String.substring (Z.to_nat from) (Z.to_nat length) s.

(** [parseInt] on a string of at most one character, as the length
    parser calls it: the value of a decimal digit, [NaN] ([None]) for
    anything else. *)
Definition parseInt (c : string) : option Z :=
  match c with
  | String a EmptyString =>
      let n := Z.of_N (N_of_ascii a) in
      if (48 <=? n) && (n <=? 57) then Some (n - 48) else None
  | _ => None
  end.

(** The engines hold strings of fewer than [2^31] characters. *)
Definition engine_holds (s : string) : bool :=
  Z.of_nat (String.length s) <? 2 ^ 31.

(** What a [throw] statement can raise: the file throws string literals;
    calling a method on [null] raises a [TypeError]. *)
Inductive exn : Type :=
| TypeError
| Thrown (msg : string).

(** How a call ends: it returns a value, it throws, or it does not return
    at all. *)
Inductive result (A : Type) : Type :=
| Ok (a : A)
| Throw (e : exn)
| NoReturn.
Arguments Ok {A} a.
Arguments Throw {A} e.
Arguments NoReturn {A}.

(** ** BigInteger *)

Module BigInteger.

(** Modelled from the spec: the arbitrary-precision integer class
    [BigInteger] is defined outside dsa-2.0.js; the spec (sections 1 and 6)
    lists it as a collaborator supporting modular exponentiation, modular
    inverse, addition, multiplication, modulus and comparison.  A
    [BigInteger] is an integer of [Z]; a variable that may hold [null] is an
    [option Z]. *)
Definition t : Type := Z.

(** Modelled from the spec: the constants [BigInteger.ZERO] and
    [BigInteger.ONE]. *)
Definition ZERO : t := 0.
Definition ONE : t := 1.

(** Modelled from the spec: value of one hexadecimal digit character. *)
Definition intAt (c : ascii) : option Z :=
  let n := Z.of_N (N_of_ascii c) in
  if (48 <=? n) && (n <=? 57) then Some (n - 48)
  else if (97 <=? n) && (n <=? 102) then Some (n - 87)
  else if (65 <=? n) && (n <=? 70) then Some (n - 55)
  else None.

(** Modelled from the spec: [new BigInteger(s, 16)] reads [s] as a
    big-endian hexadecimal numeral; the empty string is zero and a
    character that is not a hexadecimal digit contributes nothing. *)
Fixpoint fromString16 (s : string) (acc : Z) : Z :=
  match s with
  | EmptyString => acc
  | String c s' =>
      match intAt c with
      | Some d => fromString16 s' (acc * 16 + d)
      | None => fromString16 s' acc
      end
  end.

(** Modelled from the spec: [new BigInteger(s, 16)]. *)
Definition ofHex (s : string) : t := fromString16 s 0.

(** Modelled from the spec: [bitLength], the number of bits of a
    non-negative integer ([N = bitlength(q)]). *)
Definition bitLength (a : t) : Z :=
  if a <=? 0 then 0 else Z.log2 a + 1.

(** Modelled from the spec: [intValue], the low 32 bits of the integer
    read as a signed 32-bit number. *)
Definition intValue (a : t) : Z := (a + 2 ^ 31) mod 2 ^ 32 - 2 ^ 31.

(** Modelled from the spec: [add], [subtract] and [multiply] are the
    operations of the integers. *)
Definition add (a b : t) : t := a + b.
Definition subtract (a b : t) : t := a - b.
Definition multiply (a b : t) : t := a * b.

(** Modelled from the spec: [mod], the non-negative remainder. *)
Definition mod_ (a m : t) : t := a mod m.

(** Modelled from the spec: [compareTo] is negative, zero or positive as
    the receiver is below, equal to or above the argument. *)
Definition compareTo (a b : t) : Z :=
  match a ?= b with
  | Lt => -1
  | Eq => 0
  | Gt => 1
  end.

(** Modelled from the spec: [modPow], modular exponentiation, by repeated
    squaring over the bits of the exponent. *)
Fixpoint modPow_pos (a : Z) (e : positive) (m : Z) : Z :=
  match e with
  | xH => a mod m
  | xO e' => let h := modPow_pos a e' m in (h * h) mod m
  | xI e' => let h := modPow_pos a e' m in (((h * h) mod m) * a) mod m
  end.

(** Modelled from the spec: [modPow] for any exponent; an exponent that is
    not positive gives one. *)
Definition modPow (a e m : t) : t :=
  match e with
  | Zpos e' => modPow_pos a e' m
  | _ => 1 mod m
  end.

(** Modelled from the spec: the extended Euclidean algorithm behind the
    modular inverse; [egcd fuel a b = (d, u, v)] with [u * a + v * b = d]. *)
Fixpoint egcd (fuel : nat) (a b : Z) : Z * Z * Z :=
  match fuel with
  | O => (a, 1, 0)
  | S fuel' =>
      if b =? 0 then (a, 1, 0)
      else
        let '(d, u, v) := egcd fuel' b (a mod b) in
        (d, v, u - (a / b) * v)
  end.

(** Modelled from the spec: [modInverse], the inverse of the receiver
    modulo [m] in the range [0, m).  The spec defines no inverse of a value
    that has none.  Asked for the inverse of zero modulo an odd [m], the
    call does not return ([None]); for any other value without an inverse
    it returns zero. *)
Definition modInverse (a m : t) : option t :=
  if (a =? 0) && Z.odd m then None
  else if m <=? 1 then Some 0
  else
    let r := a mod m in
    let '(d, _, v) := egcd (S (Z.to_nat (Z.log2 m + Z.log2 r))) m r in
    if d =? 1 then Some (v mod m) else Some 0.

End BigInteger.

(** ** The signature container *)

(** The JSON parameter of [jsonToASN1HEX], as far as the file builds it:
    [{"seq": [...]}] and [{"int": {"bigint": v}}]. *)
#[local] Unset Elimination Schemes.
Inductive json : Type :=
| Jseq (items : list json)
| Jint_bigint (v : BigInteger.t).
#[local] Set Elimination Schemes.

Module ASN1HEX.

(** Modelled from the spec: the hexadecimal boundary of the codec (spec
    section 6: the container is consumed and produced via a hexadecimal
    string representation); a digit is written in lower case. *)
Definition hexdigit (n : Z) : ascii :=
  if n <? 10 then ascii_of_N (Z.to_N (48 + n)) else ascii_of_N (Z.to_N (87 + n)).

(** Modelled from the spec: a byte stream as a hexadecimal string, two
    digits for each byte. *)
Fixpoint hex_of_bytes (bs : list Z) : string :=
  match bs with
  | [] => EmptyString
  | b :: bs' =>
      String (hexdigit (b / 16)) (String (hexdigit (b mod 16)) (hex_of_bytes bs'))
  end.

(** Modelled from the spec: the byte stream of a hexadecimal string;
    none when the digits do not pair up or a character is not a digit. *)
Fixpoint bytes_of_hex (h : string) : option (list Z) :=
  match h with
  | EmptyString => Some []
  | String _ EmptyString => None
  | String c1 (String c2 h') =>
      match BigInteger.intAt c1, BigInteger.intAt c2, bytes_of_hex h' with
      | Some a, Some b, Some bs => Some (a * 16 + b :: bs)
      | _, _, _ => None
      end
  end.

(** Modelled from the spec: the base-256 digits of a positive integer,
    least significant first. *)
Fixpoint le_bytes (fuel : nat) (n : Z) : list Z :=
  match fuel with
  | O => []
  | S fuel' => if n <=? 0 then [] else n mod 256 :: le_bytes fuel' (n / 256)
  end.

(** Modelled from the spec: the minimal big-endian bytes of a positive
    integer (none for zero). *)
Definition be_bytes (n : Z) : list Z :=
  rev (le_bytes (S (Z.to_nat (Z.log2 n))) n).

(** Modelled from the spec: the integer that big-endian bytes stand
    for. *)
Definition be_value (bs : list Z) : Z :=
  fold_left (fun acc b => acc * 256 + b) bs 0.

(** Modelled from the spec: the content of an integer field is the
    minimal big-endian unsigned representation, with a leading zero byte
    whenever the high bit would otherwise read as a sign bit (spec
    section 4.3). *)
Definition unsigned_content (n : Z) : list Z :=
  match be_bytes n with
  | [] => [0]
  | b :: bs => if 128 <=? b then 0 :: b :: bs else b :: bs
  end.

(** Modelled from the spec: every field is length-prefixed (spec section
    6); a length below 128 is one byte, a longer one is the count of its
    bytes plus 128 followed by its big-endian bytes. *)
Definition length_octets (n : Z) : list Z :=
  if n <? 128 then [n]
  else let bs := be_bytes n in (128 + Z.of_nat (List.length bs)) :: bs.

(** Modelled from the spec: a field is its tag, the length of its
    content, and the content. *)
Definition tlv (tag : Z) (content : list Z) : list Z :=
  tag :: length_octets (Z.of_nat (List.length content)) ++ content.

(** Modelled from the spec: the tags of the standard encoding, 30 (hex)
    for an ordered sequence and 02 for an integer; the latter is the
    [checkingTag] that [parseASN1Signature] passes. *)
Definition tag_SEQUENCE : Z := 48.
Definition tag_INTEGER : Z := 2.

(** Modelled from the spec: the bytes of a JSON-described value; a
    sequence holds its items one after the other. *)
Fixpoint encode (j : json) : list Z :=
  match j with
  | Jint_bigint v => tlv tag_INTEGER (unsigned_content v)
  | Jseq items => tlv tag_SEQUENCE (List.concat (List.map encode items))
  end.

(** Modelled from the spec: [ASN1HEX] is defined outside dsa-2.0.js; it
    belongs to the general decoder of nested sequences that the spec
    (section 1) names as a collaborator.  Its functions work on the
    hexadecimal string and on positions in it; a field starts at a
    position [idx] with the two characters of its tag.

    [getLblen(s, idx)] is the number of bytes of the length of the field
    at [idx]: one unless the first length character is 8; otherwise the
    decimal digit after the 8, plus one, with -1 for 80 and -2 for
    anything else.  (On a string that no engine holds, the model lets the
    letters a to f count as 10 to 15.) *)
Definition getLblen (s : string) (idx : Z) : Z :=
  if negb (String.eqb (substr s (idx + 2) 1) "8") then 1
  else
    let c := substr s (idx + 3) 1 in
    match parseInt c with
    | Some i => if i =? 0 then -1 else i + 1
    | None =>
        if engine_holds s then -2
        else let i := BigInteger.ofHex c in if 0 <? i then i + 1 else -2
    end.

(** Modelled from the spec: [getL(s, idx)], the length bytes of the field
    at [idx] in hexadecimal. *)
Definition getL (s : string) (idx : Z) : string :=
  let len := getLblen s idx in
  if len <? 1 then "" else substr s (idx + 2) (len * 2).

(** Modelled from the spec: [getVblen(s, idx)], the length in bytes that
    the field at [idx] announces for its value, as [intValue] gives it.
    (On a string that no engine holds, the model takes the announced
    length as it is.) *)
Definition getVblen (s : string) (idx : Z) : Z :=
  let hLen := getL s idx in
  if String.eqb hLen "" then -1
  else
    let bi :=
      if String.eqb (substr hLen 0 1) "8"
      then BigInteger.ofHex (substr hLen 2 (Z.of_nat (String.length hLen)))
      else BigInteger.ofHex hLen in
    if engine_holds s then BigInteger.intValue bi else bi.

(** Modelled from the spec: [getVidx(s, idx)], the position of the value
    of the field at [idx]. *)
Definition getVidx (s : string) (idx : Z) : Z :=
  let l_len := getLblen s idx in
  if l_len <? 0 then l_len else idx + (l_len + 1) * 2.

(** Modelled from the spec: [getV(s, idx)], the value of the field at
    [idx] in hexadecimal: what the string holds of the announced length. *)
Definition getV (s : string) (idx : Z) : string :=
  let idx1 := getVidx s idx in
  let blen := getVblen s idx in
  substr s idx1 (blen * 2).

(** Modelled from the spec: [getNextSiblingIdx(s, idx)], the position
    after the field at [idx]. *)
Definition getNextSiblingIdx (s : string) (idx : Z) : Z :=
  let idx1 := getVidx s idx in
  let blen := getVblen s idx in
  idx1 + blen * 2.

(** Modelled from the spec: the loop of [getChildIdx], which goes from
    sibling to sibling while the next one starts within the announced
    length of the enclosing value, at most [k] times. *)
Fixpoint siblings (k : nat) (h : string) (p0 blen p : Z) : list Z :=
  match k with
  | O => []
  | S k' =>
      let pNext := getNextSiblingIdx h p in
      if pNext - p0 >=? blen * 2 then []
      else pNext :: siblings k' h p0 blen pNext
  end.

(** Modelled from the spec: [getChildIdx(h, pos)], the positions of the
    fields held by the field at [pos].  The first is the position of the
    value (two characters further for a bit string, tag 03), whatever is
    there; up to 200 siblings follow. *)
Definition getChildIdx (h : string) (pos : Z) : list Z :=
  let p0 := getVidx h pos in
  let first := if String.eqb (substr h pos 2) "03" then p0 + 2 else p0 in
  let blen := getVblen h pos in
  first :: siblings 200 h p0 blen p0.

(** Modelled from the spec: [getIdxbyList(h, currentIndex, nthList)], from
    the field at [currentIndex] down the children that [nthList] names;
    [undefined] ([None]) when an index names no child.  (dsa-2.0.js
    passes lists of one index; going on from [undefined] is not
    modelled.) *)
Fixpoint getIdxbyList (h : string) (currentIndex : option Z) (nthList : list Z)
    : option Z :=
  match nthList with
  | [] => currentIndex
  | firstNth :: nthList' =>
      match currentIndex with
      | None => None
      | Some idx =>
          let a := getChildIdx h idx in
          getIdxbyList h
            (if firstNth <? 0 then None else nth_error a (Z.to_nat firstNth))
            nthList'
      end
  end.

(** Modelled from the spec: [getVbyList(h, currentIndex, nthList,
    checkingTag)] throws when [nthList] leads to no field or when the
    field it leads to does not carry the tag [checkingTag], and returns
    the value of that field in hexadecimal.  It looks at nothing else: not
    at the tag of the enclosing field, the number of its fields or what
    follows it. *)
Definition getVbyList (h : string) (currentIndex : Z) (nthList : list Z)
    (checkingTag : string) : result string :=
  match getIdxbyList h (Some currentIndex) nthList with
  | None => Throw (Thrown "can't find nthList object")
  | Some idx =>
      if negb (String.eqb (substr h idx 2) checkingTag)
      then Throw (Thrown "checking tag doesn't match")
      else Ok (getV h idx)
  end.

End ASN1HEX.

Module ASN1Util.

(** Modelled from the spec: [KJUR.asn1.ASN1Util.jsonToASN1HEX] is defined
    outside dsa-2.0.js; it is the encoder of spec section 4.3, giving the
    container as a hexadecimal string. *)
Definition jsonToASN1HEX (j : json) : string :=
  ASN1HEX.hex_of_bytes (ASN1HEX.encode j).

End ASN1Util.

(** ** The random source *)

(** The state of the external random source: the raw values it will
    deliver, and the ranges it has been asked for so far (one entry per
    call, oldest first). *)
Record RandomSource : Type := mkRandomSource {
  entropy : nat -> Z;
  requests : list (Z * Z)
}.

Module Util.

(** Modelled from the spec: [KJUR.crypto.Util.getRandomBigIntegerMinToMax]
    is defined outside dsa-2.0.js; spec section 6 asks for a secure random
    integer generator bounded to an inclusive range.  One call consumes the
    next raw value and maps it into [[biMin, biMax]]; an empty range
    throws. *)
Definition getRandomBigIntegerMinToMax (biMin biMax : BigInteger.t)
    (rs : RandomSource) : result BigInteger.t * RandomSource :=
  let raw := entropy rs (List.length (requests rs)) in
  let rs' := mkRandomSource (entropy rs) (requests rs ++ [(biMin, biMax)]) in
  if biMax <? biMin then (Throw (Thrown "biMin is greater than biMax"), rs')
  else (Ok (biMin + raw mod (biMax - biMin + 1)), rs').

End Util.

(** ** KJUR.crypto.DSA *)

Module DSA.

(** The object built by [new KJUR.crypto.DSA()]: [null] fields are
    [None]; [isPrivate] and [isPublic] do not exist ([None]) until a
    setter creates them. *)
Record object : Type := mkObject {
  p : option BigInteger.t;
  q : option BigInteger.t;
  g : option BigInteger.t;
  y : option BigInteger.t;
  x : option BigInteger.t;
  type : string;
  isPrivate : option bool;
  isPublic : option bool
}.

(** Lines 45-51: the constructor. *)
Definition new : object :=
  mkObject None None None None None "DSA" None None.

(** Everything a method can touch: the receiver [this] and the random
    source. *)
Record World : Type := mkWorld {
  this : object;
  random : RandomSource
}.

(** Methods run in a state-and-exception monad over [World]. *)
Definition M (A : Type) : Type := World -> result A * World.

Definition ret {A : Type} (a : A) : M A := fun w => (Ok a, w).

Definition bind {A B : Type} (m : M A) (k : A -> M B) : M B :=
  fun w =>
    match m w with
    | (Ok a, w') => k a w'
    | (Throw e, w') => (Throw e, w')
    | (NoReturn, w') => (NoReturn, w')
    end.

Definition throw {A : Type} (e : exn) : M A := fun w => (Throw e, w).

Definition try_catch {A : Type} (body : M A) (handler : exn -> M A) : M A :=
  fun w =>
    match body w with
    | (Ok a, w') => (Ok a, w')
    | (Throw e, w') => handler e w'
    | (NoReturn, w') => (NoReturn, w')
    end.

Notation "v <- m ;; k" := (bind m (fun v => k))
  (at level 61, m at next level, right associativity).

(** [this.f] *)
Definition read {A : Type} (f : object -> A) : M A :=
  fun w => (Ok (f (this w)), w).

(** [this.f = v], given as the update of the whole object. *)
Definition write (upd : object -> object) : M unit :=
  fun w => (Ok tt, mkWorld (upd (this w)) (random w)).

(** Calling a method on a variable: a [TypeError] when it holds [null]. *)
Definition deref (v : option BigInteger.t) : M BigInteger.t :=
  match v with
  | Some a => ret a
  | None => throw TypeError
  end.

(** A call of a pure helper that may throw. *)
Definition call {A : Type} (r : result A) : M A := fun w => (r, w).

(** A call of [a.modInverse(m)]. *)
Definition modInverse (a m : BigInteger.t) : M BigInteger.t :=
  match BigInteger.modInverse a m with
  | Some v => ret v
  | None => fun w => (NoReturn, w)
  end.

(** A call of the random integer generator. *)
Definition getRandomBigIntegerMinToMax (biMin biMax : BigInteger.t)
    : M BigInteger.t :=
  fun w =>
    let '(r, rs') := Util.getRandomBigIntegerMinToMax biMin biMax (random w) in
    (r, mkWorld (this w) rs').

(** Lines 69-76. *)
Definition setPrivate (p' q' g' y' x' : option BigInteger.t) : M unit :=
  _ <- write (fun o => mkObject (p o) (q o) (g o) (y o) (x o) (type o)
                         (Some true) (isPublic o)) ;;
  _ <- write (fun o => mkObject p' (q o) (g o) (y o) (x o) (type o)
                         (isPrivate o) (isPublic o)) ;;
  _ <- write (fun o => mkObject (p o) q' (g o) (y o) (x o) (type o)
                         (isPrivate o) (isPublic o)) ;;
  _ <- write (fun o => mkObject (p o) (q o) g' (y o) (x o) (type o)
                         (isPrivate o) (isPublic o)) ;;
  _ <- write (fun o => mkObject (p o) (q o) (g o) y' (x o) (type o)
                         (isPrivate o) (isPublic o)) ;;
  write (fun o => mkObject (p o) (q o) (g o) (y o) x' (type o)
                         (isPrivate o) (isPublic o)).

(** Lines 89-96. *)
Definition setPublic (p' q' g' y' : option BigInteger.t) : M unit :=
  _ <- write (fun o => mkObject (p o) (q o) (g o) (y o) (x o) (type o)
                         (isPrivate o) (Some true)) ;;
  _ <- write (fun o => mkObject p' (q o) (g o) (y o) (x o) (type o)
                         (isPrivate o) (isPublic o)) ;;
  _ <- write (fun o => mkObject (p o) q' (g o) (y o) (x o) (type o)
                         (isPrivate o) (isPublic o)) ;;
  _ <- write (fun o => mkObject (p o) (q o) g' (y o) (x o) (type o)
                         (isPrivate o) (isPublic o)) ;;
  _ <- write (fun o => mkObject (p o) (q o) (g o) y' (x o) (type o)
                         (isPrivate o) (isPublic o)) ;;
  write (fun o => mkObject (p o) (q o) (g o) (y o) None (type o)
                         (isPrivate o) (isPublic o)).

(** Lines 197-205. *)
Definition parseASN1Signature (hSigVal : string)
    : M (BigInteger.t * BigInteger.t) :=
  try_catch
    (hr <- call (ASN1HEX.getVbyList hSigVal 0 [0] "02") ;;
     let r := BigInteger.ofHex hr in
     hs <- call (ASN1HEX.getVbyList hSigVal 0 [1] "02") ;;
     let s := BigInteger.ofHex hs in
     ret (r, s))
    (fun ex => throw (Thrown "malformed ASN.1 DSA signature")).

(** Lines 121-122: the signer's [z]. *)
Definition sign_z (qv : BigInteger.t) (sHashHex : string) : BigInteger.t :=
  let hZ := substr0 sHashHex (js_div (BigInteger.bitLength qv) 4) in
  BigInteger.ofHex hZ.

(** Lines 160-161: the verifier's [z]. *)
Definition verify_z (qv : BigInteger.t) (sHashHex : string) : BigInteger.t :=
  let hZ := substr0 sHashHex (js_div (BigInteger.bitLength qv) 4) in
  BigInteger.ofHex hZ.

(** Lines 119-134: the body of [signWithMessageHash] once [k] is drawn. *)
Definition sign_with_k (sHashHex : string)
    (p g x : option BigInteger.t) (qv k : BigInteger.t) : M string :=
  let z := sign_z qv sHashHex in
  gv <- deref g ;;
  pv <- deref p ;;
  let r := BigInteger.mod_ (BigInteger.modPow gv k pv) qv in
  kinv <- modInverse k qv ;;
  xv <- deref x ;;
  let s := BigInteger.mod_
             (BigInteger.multiply kinv
                (BigInteger.add z (BigInteger.multiply xv r))) qv in
  let result := ASN1Util.jsonToASN1HEX
                  (Jseq [Jint_bigint r; Jint_bigint s]) in
  ret result.

(** Lines 107-135. *)
Definition signWithMessageHash (sHashHex : string) : M string :=
  p <- read p ;;
  q <- read q ;;
  g <- read g ;;
  y <- read y ;;
  x <- read x ;;
  qv <- deref q ;;
  k <- getRandomBigIntegerMinToMax
         (BigInteger.add BigInteger.ONE BigInteger.ONE)
         (BigInteger.subtract qv BigInteger.ONE) ;;
  sign_with_k sHashHex p g x qv k.

(** Lines 158-185: the body of [verifyWithMessageHash] once the pair is
    decoded. *)
Definition verify_rs (sHashHex : string)
    (p q g y : option BigInteger.t) (r s : BigInteger.t) : M bool :=
  qv <- deref q ;;
  let z := verify_z qv sHashHex in
  _ <- (if (BigInteger.compareTo BigInteger.ZERO r >? 0)
           || (BigInteger.compareTo r qv >? 0)
        then throw (Thrown "invalid DSA signature") else ret tt) ;;
  _ <- (if (BigInteger.compareTo BigInteger.ZERO s >? 0)
           || (BigInteger.compareTo s qv >? 0)
        then throw (Thrown "invalid DSA signature") else ret tt) ;;
  w <- modInverse s qv ;;
  let u1 := BigInteger.mod_ (BigInteger.multiply z w) qv in
  let u2 := BigInteger.mod_ (BigInteger.multiply r w) qv in
  gv <- deref g ;;
  pv <- deref p ;;
  yv <- deref y ;;
  let v := BigInteger.mod_
             (BigInteger.mod_
                (BigInteger.multiply (BigInteger.modPow gv u1 pv)
                   (BigInteger.modPow yv u2 pv)) pv) qv in
  ret (BigInteger.compareTo v r =? 0).

(** Lines 147-186. *)
Definition verifyWithMessageHash (sHashHex hSigVal : string) : M bool :=
  p <- read p ;;
  q <- read q ;;
  g <- read g ;;
  y <- read y ;;
  rs <- parseASN1Signature hSigVal ;;
  let r := fst rs in
  let s := snd rs in
  verify_rs sHashHex p q g y r s.

End DSA.

(** ** What the specification asks for *)

Module Spec.

(** A digest is a string of hexadecimal digits. *)
Fixpoint is_hex (h : string) : bool :=
  match h with
  | EmptyString => true
  | String c h' =>
      match BigInteger.intAt c with
      | Some _ => is_hex h'
      | None => false
      end
  end.

(** The number of bits of a digest given in hexadecimal. *)
Definition outlen (h : string) : Z := 4 * Z.of_nat (String.length h).

(** The leftmost [n] bits of the digest, read as a big-endian integer. *)
Definition leftmost_bits (n : Z) (h : string) : Z :=
  Z.shiftr (BigInteger.ofHex h) (outlen h - n).

(** Spec sections 3 and 4.1: [z] is the leftmost [min(N, outlen)] bits of
    the digest, [N] the bit length of [q]. *)
Definition z_spec (qv : Z) (h : string) : Z :=
  leftmost_bits (Z.min (BigInteger.bitLength qv) (outlen h)) h.

(** Spec section 3: domain parameters and a key pair over them. *)
Definition valid_domain (pv qv gv : Z) : Prop :=
  Z.prime pv /\ Z.prime qv /\ (qv | pv - 1) /\ 1 < gv < pv /\
  BigInteger.modPow gv qv pv = 1.

(** Spec section 3: the private value lies in [(0, q)] and the public value
    is [g^x mod p]. *)
Definition key_pair (pv qv gv yv xv : Z) : Prop :=
  0 < xv < qv /\ yv = BigInteger.modPow gv xv pv.

(** A check of primality by trial division, for concrete parameters. *)
Fixpoint no_divisor (fuel : nat) (n pv : Z) : bool :=
  match fuel with
  | O => true
  | S fuel' => negb (pv mod n =? 0) && no_divisor fuel' (n + 1) pv
  end.

(** [pv] is above one and no number from two up to [pv - 1] divides
    it. *)
Definition prime_check (pv : Z) : bool :=
  (1 <? pv) && no_divisor (Z.to_nat (pv - 2)) 2 pv.

(** Spec section 4.3 and 6: a length prefix of a field, in its short
    form or followed by the bytes of the length. *)
Inductive length_prefix : Z -> list Z -> Prop :=
| short_form (n : Z) : n < 128 -> length_prefix n [n]
| long_form (bs : list Z) :
    bs <> [] ->
    length_prefix (ASN1HEX.be_value bs) (128 + Z.of_nat (List.length bs) :: bs).

(** A field: a tag, the length of the content, the content. *)
Definition field (tag : Z) (content bs : list Z) : Prop :=
  exists lp,
    length_prefix (Z.of_nat (List.length content)) lp /\
    bs = tag :: lp ++ content.

(** Spec section 4.3: a container holding an ordered sequence of exactly
    two integer fields, and nothing else. *)
Definition two_integer_sequence (h : string) : Prop :=
  exists bytes c1 c2 f1 f2,
    ASN1HEX.bytes_of_hex h = Some bytes /\
    field ASN1HEX.tag_INTEGER c1 f1 /\
    field ASN1HEX.tag_INTEGER c2 f2 /\
    field ASN1HEX.tag_SEQUENCE (f1 ++ f2) bytes.

(** Spec section 4.3: reading a length prefix off a byte stream; fails on
    a truncated length. *)
Definition parse_length (bs : list Z) : option (Z * list Z) :=
  match bs with
  | [] => None
  | b :: rest =>
      if b <? 128 then Some (b, rest)
      else
        let n := Z.to_nat (b - 128) in
        if (n =? 0)%nat then None
        else if (List.length rest <? n)%nat then None
        else Some (ASN1HEX.be_value (firstn n rest), skipn n rest)
  end.

(** Spec section 4.3: reading one tagged, length-prefixed field off the
    front of a byte stream; fails when the stream is truncated. *)
Definition parse_tlv (bs : list Z) : option (Z * list Z * list Z) :=
  match bs with
  | [] => None
  | tag :: rest =>
      match parse_length rest with
      | None => None
      | Some (len, rest') =>
          if Z.of_nat (List.length rest') <? len then None
          else Some (tag, firstn (Z.to_nat len) rest', skipn (Z.to_nat len) rest')
      end
  end.

(** Spec section 4.3: [decode] as the spec words it, failing on a wrong
    tag, a wrong count, a truncated length and trailing data; it decides
    [two_integer_sequence]. *)
Definition two_fields (h : string) : option ((Z * list Z) * (Z * list Z)) :=
  match ASN1HEX.bytes_of_hex h with
  | None => None
  | Some bytes =>
      match parse_tlv bytes with
      | Some (tag, body, []) =>
          if tag =? ASN1HEX.tag_SEQUENCE then
            match parse_tlv body with
            | Some (t1, c1, rest) =>
                match parse_tlv rest with
                | Some (t2, c2, []) => Some ((t1, c1), (t2, c2))
                | _ => None
                end
            | None => None
            end
          else None
      | _ => None
      end
  end.

End Spec.

(** ** Bytes *)

(** Every element of the list is a byte. *)
Definition bytes_ok (bs : list Z) : Prop := Forall (fun b => 0 <= b < 256) bs.

(** The largest length a length prefix is asked to carry in this
    development: its bytes are then at most 127, so that their count plus
    128 is itself a byte. *)
Definition max_length : Z := 2 ^ 127.

(** ** Frame conditions of monadic code *)

(** [m] leaves the whole world as it found it. *)
Definition preserves_world {A : Type} (m : DSA.M A) : Prop :=
  forall w, snd (m w) = w.

(** [m] leaves the receiver as it found it and only ever asks the random
    source for more values. *)
Definition preserves_this {A : Type} (m : DSA.M A) : Prop :=
  forall w,
    DSA.this (snd (m w)) = DSA.this w /\
    entropy (DSA.random (snd (m w))) = entropy (DSA.random w) /\
    exists more, requests (DSA.random (snd (m w))) = requests (DSA.random w) ++ more.

(** ** Concrete keys and inputs *)

Module Examples.

(** [p = 23], [q = 11], [g = 2] of order 11, [x = 3], [y = 2^3 mod 23]. *)
Definition key23 : DSA.object :=
  DSA.mkObject (Some 23) (Some 11) (Some 2) (Some 8) (Some 3) "DSA"
    (Some true) None.

(** [p = 67], [q = 11], [g = 64] of order 11, [x = 3],
    [y = 64^3 mod 67 = 40]. *)
Definition key67 : DSA.object :=
  DSA.mkObject (Some 67) (Some 11) (Some 64) (Some 40) (Some 3) "DSA"
    (Some true) None.

(** [p = 47], [q = 23] (five bits), [g = 2] of order 23, [x = 5],
    [y = 2^5 mod 47]. *)
Definition key47 : DSA.object :=
  DSA.mkObject (Some 47) (Some 23) (Some 2) (Some 32) (Some 5) "DSA"
    (Some true) None.

(** A random source that delivers [raw] at every call and has not been
    used yet. *)
Definition source (raw : Z) : RandomSource :=
  mkRandomSource (fun _ => raw) [].

(** A key object together with such a random source. *)
Definition world (key : DSA.object) (raw : Z) : DSA.World :=
  DSA.mkWorld key (source raw).

(** The SHA-1 digest of the three characters abc. *)
Definition sha1_abc : string := "a9993e364706816aba3e25717850c26c9cd0d89d".

(** Signing and then verifying the result with the same key object. *)
Definition sign_then_verify (sHashHex : string) (w : DSA.World) : result bool :=
  match DSA.signWithMessageHash sHashHex w with
  | (Ok hSigVal, w') => fst (DSA.verifyWithMessageHash sHashHex hSigVal w')
  | (Throw e, _) => Throw e
  | (NoReturn, _) => NoReturn
  end.

End Examples.

(** * Properties *)

Lemma Ok_inj {A : Type} (a b : A) : Ok a = Ok b -> a = b.
Proof. intros H. now injection H. Qed.

(** ** Frame lemmas for the monad *)

Section Frame.

Context {A B : Type}.

Lemma preserves_world_ret (a : A) : preserves_world (DSA.ret a).
Proof. intros w. reflexivity. Qed.

Lemma preserves_world_throw (e : exn) : preserves_world (@DSA.throw A e).
Proof. intros w. reflexivity. Qed.

Lemma preserves_world_call (r : result A) : preserves_world (DSA.call r).
Proof. intros w. reflexivity. Qed.

Lemma preserves_world_read (f : DSA.object -> A) : preserves_world (DSA.read f).
Proof. intros w. reflexivity. Qed.

Lemma preserves_world_bind (m : DSA.M A) (k : A -> DSA.M B) :
  preserves_world m -> (forall a, preserves_world (k a)) ->
  preserves_world (DSA.bind m k).
Proof.
  intros Hm Hk w. unfold DSA.bind.
  specialize (Hm w). destruct (m w) as [[a | e |] w']; simpl in Hm; subst w'.
  - apply Hk.
  - reflexivity.
  - reflexivity.
Qed.

Lemma preserves_world_try_catch (m : DSA.M A) (h : exn -> DSA.M A) :
  preserves_world m -> (forall e, preserves_world (h e)) ->
  preserves_world (DSA.try_catch m h).
Proof.
  intros Hm Hh w. unfold DSA.try_catch.
  specialize (Hm w). destruct (m w) as [[a | e |] w']; simpl in Hm; subst w'.
  - reflexivity.
  - apply Hh.
  - reflexivity.
Qed.

Lemma preserves_world_if (c : bool) (m1 m2 : DSA.M A) :
  preserves_world m1 -> preserves_world m2 ->
  preserves_world (if c then m1 else m2).
Proof. destruct c; trivial. Qed.

Lemma preserves_this_of_world (m : DSA.M A) :
  preserves_world m -> preserves_this m.
Proof.
  intros Hm w. rewrite (Hm w). repeat split.
  exists []. symmetry. apply app_nil_r.
Qed.

Lemma preserves_this_bind (m : DSA.M A) (k : A -> DSA.M B) :
  preserves_this m -> (forall a, preserves_this (k a)) ->
  preserves_this (DSA.bind m k).
Proof.
  intros Hm Hk w. unfold DSA.bind.
  destruct (Hm w) as (Ht & He & more & Hr).
  destruct (m w) as [[a | e |] w']; simpl in *.
  - destruct (Hk a w') as (Ht' & He' & more' & Hr').
    rewrite Ht', He', Hr', Ht, He, Hr. repeat split.
    exists (more ++ more'). symmetry. apply app_assoc.
  - repeat split; trivial. now exists more.
  - repeat split; trivial. now exists more.
Qed.

End Frame.

Lemma preserves_world_deref (v : option BigInteger.t) :
  preserves_world (DSA.deref v).
Proof. destruct v; intros w; reflexivity. Qed.

Lemma preserves_world_modInverse (a m : BigInteger.t) :
  preserves_world (DSA.modInverse a m).
Proof.
  unfold DSA.modInverse. destruct (BigInteger.modInverse a m); intros w; reflexivity.
Qed.

Lemma preserves_this_getRandom (biMin biMax : BigInteger.t) :
  preserves_this (DSA.getRandomBigIntegerMinToMax biMin biMax).
Proof.
  intros w. unfold DSA.getRandomBigIntegerMinToMax, Util.getRandomBigIntegerMinToMax.
  destruct (biMax <? biMin); simpl; repeat split; now exists [(biMin, biMax)].
Qed.

Create HintDb frame.
#[local] Hint Resolve preserves_world_ret preserves_world_throw
  preserves_world_call preserves_world_read preserves_world_deref
  preserves_world_modInverse : frame.

(** Decompose a monadic term into its binds and leaves. *)
Ltac frame_world :=
  repeat (intros; cbv zeta;
          first [ apply preserves_world_bind
                | apply preserves_world_try_catch
                | apply preserves_world_if
                | solve [auto with frame] ]).

Lemma preserves_world_parse (hSigVal : string) :
  preserves_world (DSA.parseASN1Signature hSigVal).
Proof. unfold DSA.parseASN1Signature. frame_world. Qed.

Lemma preserves_world_verify_rs sHashHex p q g y r s :
  preserves_world (DSA.verify_rs sHashHex p q g y r s).
Proof. unfold DSA.verify_rs. frame_world. Qed.

Lemma preserves_world_verify (sHashHex hSigVal : string) :
  preserves_world (DSA.verifyWithMessageHash sHashHex hSigVal).
Proof.
  unfold DSA.verifyWithMessageHash. frame_world.
Qed.

Lemma preserves_world_sign_with_k sHashHex p g x qv k :
  preserves_world (DSA.sign_with_k sHashHex p g x qv k).
Proof. unfold DSA.sign_with_k. frame_world. Qed.

Lemma preserves_this_sign (sHashHex : string) :
  preserves_this (DSA.signWithMessageHash sHashHex).
Proof.
  unfold DSA.signWithMessageHash.
  do 7 (intros; apply preserves_this_bind;
        [ first [ apply preserves_this_getRandom
                | apply preserves_this_of_world; solve [auto with frame] ] | ]).
  intros. apply preserves_this_of_world, preserves_world_sign_with_k.
Qed.

(** ** Running the two methods on a complete key *)

Lemma sign_unfold sHashHex w qv :
  DSA.q (DSA.this w) = Some qv ->
  DSA.signWithMessageHash sHashHex w =
  DSA.bind (DSA.getRandomBigIntegerMinToMax 2 (qv - 1))
    (DSA.sign_with_k sHashHex (DSA.p (DSA.this w)) (DSA.g (DSA.this w))
       (DSA.x (DSA.this w)) qv) w.
Proof.
  intros Hq. unfold DSA.signWithMessageHash, DSA.bind at 1 2 3 4 5 6, DSA.read.
  rewrite Hq. reflexivity.
Qed.

Lemma getRandom_run biMin biMax w :
  DSA.getRandomBigIntegerMinToMax biMin biMax w =
  (if biMax <? biMin then Throw (Thrown "biMin is greater than biMax")
   else Ok (biMin + entropy (DSA.random w) (List.length (requests (DSA.random w)))
                      mod (biMax - biMin + 1)),
   DSA.mkWorld (DSA.this w)
     (mkRandomSource (entropy (DSA.random w))
        (requests (DSA.random w) ++ [(biMin, biMax)]))).
Proof.
  unfold DSA.getRandomBigIntegerMinToMax, Util.getRandomBigIntegerMinToMax.
  destruct (biMax <? biMin); reflexivity.
Qed.

(** ** Effects of the two methods *)

(** C8: [signWithMessageHash] leaves the key object (all of [p], [q], [g],
    [y], [x], [type] and the flags) unchanged and touches the random source
    only by asking it for values; [verifyWithMessageHash] leaves the key
    object and the random source exactly as they were.  Strings, the only
    other inputs, are immutable values. *)
Theorem sign_verify_frame (sHashHex hSigVal : string) (w : DSA.World) :
  (DSA.this (snd (DSA.signWithMessageHash sHashHex w)) = DSA.this w /\
   entropy (DSA.random (snd (DSA.signWithMessageHash sHashHex w))) =
     entropy (DSA.random w) /\
   exists more,
     requests (DSA.random (snd (DSA.signWithMessageHash sHashHex w))) =
       requests (DSA.random w) ++ more) /\
  snd (DSA.verifyWithMessageHash sHashHex hSigVal w) = w.
Proof.
  split.
  - apply preserves_this_sign.
  - apply preserves_world_verify.
Qed.

(** C6: when the key has a subgroup order [q], [signWithMessageHash] asks
    the random source exactly once, for the inclusive range [2, q-1]; the
    value [k] it gets lies in that range, so it is never 1, and the rest of
    the method runs with that [k].  For [q > 2] the draw succeeds. *)
Theorem sign_draws_k_once (sHashHex : string) (w : DSA.World) (qv : Z) :
  DSA.q (DSA.this w) = Some qv ->
  requests (DSA.random (snd (DSA.signWithMessageHash sHashHex w))) =
    requests (DSA.random w) ++ [(2, qv - 1)] /\
  (forall k w',
      DSA.getRandomBigIntegerMinToMax 2 (qv - 1) w = (Ok k, w') ->
      2 <= k <= qv - 1 /\ k <> 1 /\
      DSA.signWithMessageHash sHashHex w =
        DSA.sign_with_k sHashHex (DSA.p (DSA.this w)) (DSA.g (DSA.this w))
          (DSA.x (DSA.this w)) qv k w') /\
  (2 < qv ->
   exists k w', DSA.getRandomBigIntegerMinToMax 2 (qv - 1) w = (Ok k, w')).
Proof.
  intros Hq. rewrite (sign_unfold _ _ _ Hq). unfold DSA.bind.
  rewrite getRandom_run.
  destruct (Z.ltb_spec (qv - 1) 2) as [Hlt | Hge].
  - repeat split; try reflexivity; try discriminate; lia.
  - split; [| split].
    + rewrite preserves_world_sign_with_k. reflexivity.
    + intros k w' Hk.
      pose proof (Ok_inj _ _ (f_equal fst Hk)) as Hk1.
      pose proof (f_equal snd Hk) as Hw'. cbv [snd] in Hw'.
      clear Hk. subst k w'.
      assert (0 <= entropy (DSA.random w) (List.length (requests (DSA.random w)))
                   mod (qv - 1 - 2 + 1) < qv - 1 - 2 + 1)
        by (apply Z.mod_pos_bound; lia).
      split; [lia | split; [lia | reflexivity]].
    + intros _. eauto.
Qed.

Lemma sign_draws_k_once_witness :
  requests (DSA.random (snd (DSA.signWithMessageHash Examples.sha1_abc
                               (Examples.world Examples.key23 0)))) =
    [] ++ [(2, 11 - 1)] /\
  (forall k w',
      DSA.getRandomBigIntegerMinToMax 2 (11 - 1) (Examples.world Examples.key23 0)
        = (Ok k, w') ->
      2 <= k <= 11 - 1 /\ k <> 1 /\
      DSA.signWithMessageHash Examples.sha1_abc (Examples.world Examples.key23 0) =
        DSA.sign_with_k Examples.sha1_abc (Some 23) (Some 2) (Some 3) 11 k w') /\
  (2 < 11 ->
   exists k w',
     DSA.getRandomBigIntegerMinToMax 2 (11 - 1) (Examples.world Examples.key23 0)
       = (Ok k, w')).
Proof.
  apply (sign_draws_k_once Examples.sha1_abc (Examples.world Examples.key23 0) 11).
  reflexivity.
Defined.

(** ** The missing retry and the loose range check, on concrete keys *)

(** C1 (failing input): with [p = 23], [q = 11], [g = 2], [x = 3], [y = 8],
    the SHA-1 digest of abc and the draw [k = 2], signing gives [r = 4] and
    [s = 0], and verifying that signature with the same key does not answer
    [true]: the range check lets [s = 0] through and [s.modInverse(q)] does
    not return. *)
Theorem sign_then_verify_fails_on_zero_s :
  DSA.getRandomBigIntegerMinToMax 2 10 (Examples.world Examples.key23 0) =
    (Ok 2, DSA.mkWorld Examples.key23
             (mkRandomSource (entropy (Examples.source 0)) [(2, 10)])) /\
  fst (DSA.signWithMessageHash Examples.sha1_abc (Examples.world Examples.key23 0))
    = Ok "3006020104020100" /\
  Examples.sign_then_verify Examples.sha1_abc (Examples.world Examples.key23 0)
    = NoReturn /\
  Examples.sign_then_verify Examples.sha1_abc (Examples.world Examples.key23 0)
    <> Ok true.
Proof. repeat split; try (vm_compute; reflexivity). vm_compute. discriminate. Qed.

(** C2 (failing input): with [p = 67], [q = 11], [g = 64], [y = 40] and the
    SHA-1 digest of abc, the signature with [r = 0] and [s = 1] decodes and
    is accepted: [verifyWithMessageHash] answers [true]. *)
Theorem verify_accepts_zero_r :
  fst (DSA.parseASN1Signature "3006020100020101" (Examples.world Examples.key67 0))
    = Ok (0, 1) /\
  fst (DSA.verifyWithMessageHash Examples.sha1_abc "3006020100020101"
         (Examples.world Examples.key67 0)) = Ok true.
Proof. split; vm_compute; reflexivity. Qed.

(** C3 (failing input): no retry takes place.  With the key of [p = 23]
    and the draw [k = 2] the method returns the encoding of [(4, 0)]; with
    the key of [p = 67] and the draw [k = 10] it returns the encoding of
    [(0, 1)]. *)
Theorem sign_returns_zero_component :
  (fst (DSA.signWithMessageHash Examples.sha1_abc (Examples.world Examples.key23 0))
     = Ok "3006020104020100" /\
   fst (DSA.parseASN1Signature "3006020104020100" (Examples.world Examples.key23 0))
     = Ok (4, 0) /\
   requests (DSA.random (snd (DSA.signWithMessageHash Examples.sha1_abc
                                (Examples.world Examples.key23 0)))) = [(2, 10)]) /\
  (fst (DSA.signWithMessageHash Examples.sha1_abc (Examples.world Examples.key67 8))
     = Ok "3006020100020101" /\
   fst (DSA.parseASN1Signature "3006020100020101" (Examples.world Examples.key67 8))
     = Ok (0, 1) /\
   requests (DSA.random (snd (DSA.signWithMessageHash Examples.sha1_abc
                                (Examples.world Examples.key67 8)))) = [(2, 10)]).
Proof. repeat split; vm_compute; reflexivity. Qed.

(** C7 (failing input): for [q = 23], of five bits, and the SHA-1 digest of
    abc, signer and verifier both take [z = 10], the first hexadecimal
    digit, while the leftmost [min(N, outlen) = 5] bits of the digest are
    [21]. *)
Theorem z_is_not_the_leftmost_bits :
  DSA.q Examples.key47 = Some 23 /\
  BigInteger.bitLength 23 = 5 /\
  Spec.is_hex Examples.sha1_abc = true /\
  Spec.outlen Examples.sha1_abc = 160 /\
  DSA.sign_z 23 Examples.sha1_abc = 10 /\
  DSA.verify_z 23 Examples.sha1_abc = 10 /\
  Spec.z_spec 23 Examples.sha1_abc = 21.
Proof. repeat split; vm_compute; reflexivity. Qed.

(** C9 (counterexample): with [p = 23], [q = 11], [g = 2], [y = 8], the
    signature with [r = 12 >= q] and [s = 1] decodes, and
    [verifyWithMessageHash] does not return [false]: it throws. *)
Lemma verify_throws_above_q :
  fst (DSA.parseASN1Signature "300602010c020101" (Examples.world Examples.key23 0))
    = Ok (12, 1) /\
  11 <= 12 /\ 0 < 1 < 11 /\
  fst (DSA.verifyWithMessageHash Examples.sha1_abc "300602010c020101"
         (Examples.world Examples.key23 0))
    = Throw (Thrown "invalid DSA signature") /\
  fst (DSA.verifyWithMessageHash Examples.sha1_abc "300602010c020101"
         (Examples.world Examples.key23 0)) <> Ok false.
Proof.
  repeat split; try lia; try (vm_compute; reflexivity).
  vm_compute. discriminate.
Qed.


(** ** Comparison and the verifier on a complete public key *)

Lemma compareTo_gt (a b : Z) : (BigInteger.compareTo a b >? 0) = (b <? a).
Proof.
  unfold BigInteger.compareTo.
  destruct (Z.compare_spec a b); destruct (Z.ltb_spec b a); try reflexivity; lia.
Qed.

Lemma compareTo_eq (a b : Z) : (BigInteger.compareTo a b =? 0) = (a =? b).
Proof.
  unfold BigInteger.compareTo.
  destruct (Z.compare_spec a b); destruct (Z.eqb_spec a b); try reflexivity; lia.
Qed.

Lemma verify_rs_run sHashHex pv qv gv yv r s w :
  DSA.verify_rs sHashHex (Some pv) (Some qv) (Some gv) (Some yv) r s w =
  (if (r <? 0) || (qv <? r) then Throw (Thrown "invalid DSA signature")
   else if (s <? 0) || (qv <? s) then Throw (Thrown "invalid DSA signature")
   else
     match BigInteger.modInverse s qv with
     | Some w' =>
         let z := DSA.verify_z qv sHashHex in
         let u1 := (z * w') mod qv in
         let u2 := (r * w') mod qv in
         Ok (((BigInteger.modPow gv u1 pv * BigInteger.modPow yv u2 pv) mod pv)
               mod qv =? r)
     | None => NoReturn
     end,
   w).
Proof.
  unfold DSA.verify_rs, DSA.bind, DSA.deref, DSA.ret, DSA.throw, DSA.modInverse.
  rewrite !compareTo_gt. unfold BigInteger.ZERO.
  destruct ((r <? 0) || (qv <? r)); [reflexivity |].
  destruct ((s <? 0) || (qv <? s)); [reflexivity |].
  destruct (BigInteger.modInverse s qv) as [w' |]; [| reflexivity].
  unfold DSA.ret. cbv beta iota zeta. rewrite compareTo_eq. reflexivity.
Qed.

Lemma modInverse_returns a m :
  a <> 0 \/ Z.odd m = false -> exists v, BigInteger.modInverse a m = Some v.
Proof.
  intros H. unfold BigInteger.modInverse.
  destruct (Z.eqb_spec a 0) as [Ha | Ha]; cbn [andb].
  - destruct H as [H | H]; [contradiction |]. rewrite H.
    destruct (m <=? 1); [eauto |].
    destruct (BigInteger.egcd _ _ _) as [[d u] v]. destruct (d =? 1); eauto.
  - destruct (m <=? 1); [eauto |].
    destruct (BigInteger.egcd _ _ _) as [[d u] v]. destruct (d =? 1); eauto.
Qed.

Lemma modInverse_zero_odd m : Z.odd m = true -> BigInteger.modInverse 0 m = None.
Proof. intros H. unfold BigInteger.modInverse. rewrite H. reflexivity. Qed.

Lemma verify_unfold sHashHex hSigVal w r s :
  fst (DSA.parseASN1Signature hSigVal w) = Ok (r, s) ->
  DSA.verifyWithMessageHash sHashHex hSigVal w =
  DSA.verify_rs sHashHex (DSA.p (DSA.this w)) (DSA.q (DSA.this w))
    (DSA.g (DSA.this w)) (DSA.y (DSA.this w)) r s w.
Proof.
  intros Hparse. unfold DSA.verifyWithMessageHash, DSA.bind, DSA.read.
  pose proof (preserves_world_parse hSigVal w) as Hw.
  destruct (DSA.parseASN1Signature hSigVal w) as [res w'].
  simpl in Hparse, Hw. subst res w'. reflexivity.
Qed.

(** C9 (amended): for a complete public key with [q > 0] and a signature
    that decodes to [(r, s)] with [r >= q] and [0 < s < q],
    [verifyWithMessageHash] never returns [true]: for [r = q] the range
    check lets the pair through and the method returns [false], because
    [v] is below [q]; for [r > q] the range check throws
    "invalid DSA signature". *)
Theorem verify_rejects_r_at_least_q sHashHex hSigVal w pv qv gv yv r s :
  DSA.p (DSA.this w) = Some pv ->
  DSA.q (DSA.this w) = Some qv ->
  DSA.g (DSA.this w) = Some gv ->
  DSA.y (DSA.this w) = Some yv ->
  fst (DSA.parseASN1Signature hSigVal w) = Ok (r, s) ->
  0 < qv -> qv <= r -> 0 < s < qv ->
  fst (DSA.verifyWithMessageHash sHashHex hSigVal w) <> Ok true /\
  (r = qv -> fst (DSA.verifyWithMessageHash sHashHex hSigVal w) = Ok false) /\
  (qv < r ->
   fst (DSA.verifyWithMessageHash sHashHex hSigVal w)
     = Throw (Thrown "invalid DSA signature")).
Proof.
  intros Hp Hq Hg Hy Hparse Hq0 Hr Hs.
  rewrite (verify_unfold _ _ _ _ _ Hparse), Hp, Hq, Hg, Hy, verify_rs_run.
  cbv [fst].
  destruct (Z.ltb_spec r 0) as [? | _]; [lia |].
  destruct (Z.ltb_spec qv r) as [Hgt | Hle]; cbv beta iota delta [orb].
  - repeat split; [discriminate | lia].
  - assert (r = qv) by lia. subst r.
    destruct (Z.ltb_spec s 0) as [? | _]; [lia |].
    destruct (Z.ltb_spec qv s) as [? | _]; [lia |]. cbv beta iota zeta delta [orb].
    destruct (modInverse_returns s qv) as [winv ->]; [left; lia |].
    cbv beta iota zeta.
    match goal with
    | |- context [(?v mod qv =? qv)] =>
        pose proof (Z.mod_pos_bound v qv Hq0) as Hv;
        destruct (Z.eqb_spec (v mod qv) qv) as [Heq | _]; [lia |]
    end.
    repeat split; [discriminate | lia].
Qed.

Lemma verify_rejects_r_at_least_q_witness :
  fst (DSA.verifyWithMessageHash Examples.sha1_abc "300602010b020101"
         (Examples.world Examples.key23 0)) <> Ok true /\
  (11 = 11 ->
   fst (DSA.verifyWithMessageHash Examples.sha1_abc "300602010b020101"
          (Examples.world Examples.key23 0)) = Ok false) /\
  (11 < 11 ->
   fst (DSA.verifyWithMessageHash Examples.sha1_abc "300602010b020101"
          (Examples.world Examples.key23 0))
     = Throw (Thrown "invalid DSA signature")).
Proof.
  apply (verify_rejects_r_at_least_q Examples.sha1_abc "300602010b020101"
           (Examples.world Examples.key23 0) 23 11 2 8 11 1);
    try reflexivity; lia.
Defined.

(** ** Hexadecimal numerals *)

Lemma intAt_range c d : BigInteger.intAt c = Some d -> 0 <= d < 16.
Proof.
  unfold BigInteger.intAt.
  set (n := Z.of_N (N_of_ascii c)).
  destruct (Z.leb_spec 48 n), (Z.leb_spec n 57); cbn [andb];
    try (intros [= <-]; lia);
    destruct (Z.leb_spec 97 n), (Z.leb_spec n 102); cbn [andb];
    try (intros [= <-]; lia);
    destruct (Z.leb_spec 65 n), (Z.leb_spec n 70); cbn [andb];
    try (intros [= <-]; lia); discriminate.
Qed.

Lemma fromString16_hex h :
  Spec.is_hex h = true ->
  (forall acc,
      BigInteger.fromString16 h acc =
      acc * 16 ^ Z.of_nat (String.length h) + BigInteger.ofHex h) /\
  0 <= BigInteger.ofHex h < 16 ^ Z.of_nat (String.length h).
Proof.
  unfold BigInteger.ofHex.
  induction h as [| c h IH]; intros Hhex.
  - split; [intros acc; cbn; lia | cbn; lia].
  - cbn [Spec.is_hex] in Hhex. cbn [BigInteger.fromString16 String.length].
    destruct (BigInteger.intAt c) as [d |] eqn:Hc; [| discriminate].
    apply intAt_range in Hc. destruct (IH Hhex) as [IHacc IHb].
    rewrite Nat2Z.inj_succ, Z.pow_succ_r by lia.
    set (P := 16 ^ Z.of_nat (String.length h)) in *.
    split.
    + intros acc. rewrite (IHacc (acc * 16 + d)), (IHacc (0 * 16 + d)). ring.
    + rewrite (IHacc (0 * 16 + d)). nia.
Qed.

Lemma substring_all h n :
  (String.length h <= n)%nat -> String.substring 0 n h = h.
Proof.
  revert n. induction h as [| c h IH]; intros [| n] Hn; cbn in *;
    try reflexivity; try lia.
  f_equal. apply IH. lia.
Qed.

(** The numeral made of the first [n] digits is the numeral shifted right
    by the bits of the digits left out. *)
Lemma ofHex_prefix h n :
  Spec.is_hex h = true -> (n <= String.length h)%nat ->
  BigInteger.ofHex (String.substring 0 n h) =
  Z.shiftr (BigInteger.ofHex h) (4 * (Z.of_nat (String.length h) - Z.of_nat n)).
Proof.
  intros Hhex Hn. rewrite Z.shiftr_div_pow2 by lia.
  unfold BigInteger.ofHex. generalize 0 at 1 2 as acc.
  revert n Hn. induction h as [| c h IH]; intros n Hn acc.
  - destruct n; cbn in *; [| lia]. now rewrite Z.div_1_r.
  - cbn [Spec.is_hex] in Hhex.
    destruct (BigInteger.intAt c) as [d |] eqn:Hc; [| discriminate].
    destruct n as [| n].
    + change (String.substring 0 0 (String c h)) with EmptyString.
      change (BigInteger.fromString16 EmptyString acc) with acc.
      destruct (fromString16_hex (String c h)) as [Hacc Hb].
      { cbn [Spec.is_hex]. now rewrite Hc. }
      rewrite Hacc. rewrite Z.sub_0_r.
      replace (2 ^ (4 * Z.of_nat (String.length (String c h))))
        with (16 ^ Z.of_nat (String.length (String c h)))
        by (rewrite (Z.pow_mul_r 2 4) by lia; reflexivity).
      rewrite Z.div_add_l by lia. rewrite Z.div_small by lia. lia.
    + cbn [String.substring BigInteger.fromString16 String.length]. rewrite Hc.
      cbn [String.length] in Hn.
      rewrite (IH Hhex n ltac:(lia)). do 2 f_equal. lia.
Qed.

Lemma bitLength_nonneg a : 0 <= BigInteger.bitLength a.
Proof.
  unfold BigInteger.bitLength. destruct (Z.leb_spec a 0); [lia |].
  pose proof (Z.log2_nonneg a). lia.
Qed.

Lemma ToInteger_quarter n : 0 <= n -> ToInteger (js_div n 4) = n / 4.
Proof. intros Hn. unfold ToInteger, js_div. cbn. apply Z.quot_div_nonneg; lia. Qed.

Lemma sign_z_digits qv h :
  DSA.sign_z qv h =
  BigInteger.ofHex
    (String.substring 0 (Z.to_nat (BigInteger.bitLength qv / 4)) h).
Proof.
  unfold DSA.sign_z, substr0.
  now rewrite ToInteger_quarter by apply bitLength_nonneg.
Qed.

Lemma sign_z_verify_z qv h : DSA.sign_z qv h = DSA.verify_z qv h.
Proof. reflexivity. Qed.

(** X2: when the bit length [N] of [q] is a multiple of four (160, 224
    and 256 are), the [z] that the code takes from a hexadecimal digest is
    the value of its leftmost [min(N, outlen)] bits. *)
Lemma sign_z_spec_multiple_of_4 qv h :
  Spec.is_hex h = true -> BigInteger.bitLength qv mod 4 = 0 ->
  DSA.sign_z qv h = Spec.z_spec qv h.
Proof.
  intros Hhex Hmod. rewrite sign_z_digits.
  pose proof (bitLength_nonneg qv) as HN.
  set (N := BigInteger.bitLength qv) in *.
  assert (HN4 : N = 4 * (N / 4)) by (pose proof (Z.div_mod N 4); lia).
  unfold Spec.z_spec, Spec.leftmost_bits, Spec.outlen. fold N.
  destruct (Z.le_gt_cases N (4 * Z.of_nat (String.length h))) as [Hle | Hgt].
  - rewrite Z.min_l by lia.
    rewrite ofHex_prefix by (trivial; lia). f_equal. lia.
  - rewrite Z.min_r by lia. rewrite Z.sub_diag, Z.shiftr_0_r.
    now rewrite substring_all by lia.
Qed.

(** ** The codec: bytes and hexadecimal digits *)

Lemma intAt_hexdigit d : 0 <= d < 16 -> BigInteger.intAt (ASN1HEX.hexdigit d) = Some d.
Proof.
  intros Hd.
  assert (H : d = 0 \/ d = 1 \/ d = 2 \/ d = 3 \/ d = 4 \/ d = 5 \/ d = 6 \/
              d = 7 \/ d = 8 \/ d = 9 \/ d = 10 \/ d = 11 \/ d = 12 \/
              d = 13 \/ d = 14 \/ d = 15) by lia.
  repeat (destruct H as [-> | H]; [reflexivity |]). subst d. reflexivity.
Qed.

Lemma byte_nibbles b :
  0 <= b < 256 -> 0 <= b / 16 < 16 /\ 0 <= b mod 16 < 16 /\ b / 16 * 16 + b mod 16 = b.
Proof.
  intros Hb. pose proof (Z.div_mod b 16). pose proof (Z.mod_pos_bound b 16).
  assert (0 <= b / 16) by (apply Z.div_pos; lia).
  assert (b / 16 < 16) by (apply Z.div_lt_upper_bound; lia).
  lia.
Qed.

Lemma bytes_of_hex_of_bytes bs :
  bytes_ok bs -> ASN1HEX.bytes_of_hex (ASN1HEX.hex_of_bytes bs) = Some bs.
Proof.
  induction 1 as [| b bs Hb _ IH]; [reflexivity |].
  destruct (byte_nibbles b Hb) as (Hh & Hl & Heq).
  cbn [ASN1HEX.hex_of_bytes ASN1HEX.bytes_of_hex].
  rewrite (intAt_hexdigit _ Hh), (intAt_hexdigit _ Hl), IH, Heq. reflexivity.
Qed.

Lemma fromString16_hex_of_bytes bs :
  bytes_ok bs ->
  forall acc,
    BigInteger.fromString16 (ASN1HEX.hex_of_bytes bs) acc =
    fold_left (fun a b => a * 256 + b) bs acc.
Proof.
  induction 1 as [| b bs Hb _ IH]; intros acc; [reflexivity |].
  destruct (byte_nibbles b Hb) as (Hh & Hl & Heq).
  cbn [ASN1HEX.hex_of_bytes BigInteger.fromString16 fold_left].
  rewrite (intAt_hexdigit _ Hh), (intAt_hexdigit _ Hl), IH.
  f_equal. lia.
Qed.

Lemma ofHex_hex_of_bytes bs :
  bytes_ok bs -> BigInteger.ofHex (ASN1HEX.hex_of_bytes bs) = ASN1HEX.be_value bs.
Proof. intros H. apply (fromString16_hex_of_bytes bs H 0). Qed.

Lemma bytes_of_hex_ok h bs : ASN1HEX.bytes_of_hex h = Some bs -> bytes_ok bs.
Proof.
  revert bs.
  assert (H : forall n h, (String.length h <= n)%nat ->
                forall bs, ASN1HEX.bytes_of_hex h = Some bs -> bytes_ok bs).
  { induction n as [| n IH]; intros [| c1 [| c2 h']] Hlen bs Hbs;
      cbn [ASN1HEX.bytes_of_hex String.length] in *;
      try discriminate; try lia;
      try (injection Hbs as <-; constructor).
    destruct (BigInteger.intAt c1) as [a |] eqn:Ha; [| discriminate].
    destruct (BigInteger.intAt c2) as [b |] eqn:Hb; [| discriminate].
    destruct (ASN1HEX.bytes_of_hex h') as [bs' |] eqn:Hh'; [| discriminate].
    injection Hbs as <-. apply intAt_range in Ha, Hb.
    constructor; [lia |]. apply (IH h'); [lia | assumption]. }
  intros bs. apply (H (String.length h)). lia.
Qed.

(** ** The codec: integers as bytes *)

Lemma le_bytes_ok fuel n : bytes_ok (ASN1HEX.le_bytes fuel n).
Proof.
  revert n. induction fuel as [| fuel IH]; intros n; cbn [ASN1HEX.le_bytes].
  - constructor.
  - destruct (n <=? 0); constructor; [| apply IH].
    apply Z.mod_pos_bound. lia.
Qed.

Lemma le_bytes_length fuel n : (List.length (ASN1HEX.le_bytes fuel n) <= fuel)%nat.
Proof.
  revert n. induction fuel as [| fuel IH]; intros n; cbn [ASN1HEX.le_bytes].
  - cbn. lia.
  - destruct (n <=? 0); cbn [List.length]; [lia |].
    specialize (IH (n / 256)). lia.
Qed.

Lemma le_bytes_value fuel n :
  0 <= n < 2 ^ Z.of_nat fuel ->
  fold_right (fun b acc => acc * 256 + b) 0 (ASN1HEX.le_bytes fuel n) = n.
Proof.
  revert n. induction fuel as [| fuel IH]; intros n Hn; cbn [ASN1HEX.le_bytes].
  - cbn in *. lia.
  - destruct (Z.leb_spec n 0) as [H0 | Hpos]; [cbn; lia |].
    cbn [fold_right]. rewrite IH.
    + pose proof (Z.div_mod n 256). lia.
    + rewrite Nat2Z.inj_succ, Z.pow_succ_r in Hn by lia.
      split; [apply Z.div_pos; lia |].
      apply Z.div_lt_upper_bound; lia.
Qed.

Lemma be_value_rev l :
  ASN1HEX.be_value (rev l) = fold_right (fun b acc => acc * 256 + b) 0 l.
Proof.
  unfold ASN1HEX.be_value.
  rewrite <- (rev_involutive l) at 2.
  now rewrite fold_left_rev_right.
Qed.

Lemma be_bytes_value n : 0 <= n -> ASN1HEX.be_value (ASN1HEX.be_bytes n) = n.
Proof.
  intros Hn. unfold ASN1HEX.be_bytes. rewrite be_value_rev.
  apply le_bytes_value. split; [assumption |].
  destruct (Z.eq_dec n 0) as [-> | Hne].
  - cbn. lia.
  - rewrite Nat2Z.inj_succ, Z2Nat.id by apply Z.log2_nonneg.
    apply Z.log2_spec. lia.
Qed.

Lemma be_bytes_ok n : bytes_ok (ASN1HEX.be_bytes n).
Proof.
  unfold ASN1HEX.be_bytes, bytes_ok.
  apply Forall_rev. apply le_bytes_ok.
Qed.

Lemma be_bytes_length n :
  Z.of_nat (List.length (ASN1HEX.be_bytes n)) <= Z.log2 n + 1.
Proof.
  unfold ASN1HEX.be_bytes. rewrite length_rev.
  pose proof (le_bytes_length (S (Z.to_nat (Z.log2 n))) n).
  pose proof (Z.log2_nonneg n). lia.
Qed.

Lemma be_bytes_nonempty n : 0 < n -> ASN1HEX.be_bytes n <> [].
Proof.
  intros Hn. unfold ASN1HEX.be_bytes. cbn [ASN1HEX.le_bytes].
  destruct (Z.leb_spec n 0); [lia |].
  cbn [rev]. intros Hnil. apply app_eq_nil in Hnil as [_ Hnil]. discriminate.
Qed.

Lemma be_value_zero_head bs : ASN1HEX.be_value (0 :: bs) = ASN1HEX.be_value bs.
Proof. reflexivity. Qed.

Lemma unsigned_content_value n :
  0 <= n -> ASN1HEX.be_value (ASN1HEX.unsigned_content n) = n.
Proof.
  intros Hn. pose proof (be_bytes_value n Hn) as Hv.
  unfold ASN1HEX.unsigned_content.
  destruct (ASN1HEX.be_bytes n) as [| b bs]; [exact Hv |].
  destruct (128 <=? b); [rewrite be_value_zero_head |]; exact Hv.
Qed.

Lemma unsigned_content_ok n : bytes_ok (ASN1HEX.unsigned_content n).
Proof.
  pose proof (be_bytes_ok n) as Hok. unfold ASN1HEX.unsigned_content.
  destruct (ASN1HEX.be_bytes n) as [| b bs].
  - repeat constructor; lia.
  - destruct (128 <=? b); [constructor; [lia | exact Hok] | exact Hok].
Qed.

Lemma unsigned_content_length n :
  Z.of_nat (List.length (ASN1HEX.unsigned_content n)) <= Z.log2 n + 2.
Proof.
  pose proof (be_bytes_length n) as Hlen. pose proof (Z.log2_nonneg n).
  unfold ASN1HEX.unsigned_content.
  destruct (ASN1HEX.be_bytes n) as [| b bs].
  - cbn. lia.
  - destruct (128 <=? b); cbn [List.length] in *; lia.
Qed.

(** ** The codec: fields *)

Lemma firstn_skipn_app {A : Type} (l1 l2 : list A) :
  firstn (List.length l1) (l1 ++ l2) = l1 /\ skipn (List.length l1) (l1 ++ l2) = l2.
Proof.
  split.
  - rewrite firstn_app, Nat.sub_diag, firstn_all. cbn. apply app_nil_r.
  - rewrite skipn_app, Nat.sub_diag, skipn_all. reflexivity.
Qed.

Lemma log2_below_max n : 0 < n < max_length -> Z.log2 n + 1 <= 127.
Proof.
  intros Hn. unfold max_length in Hn.
  assert (Z.log2 n < 127) by (apply Z.log2_lt_pow2; lia). lia.
Qed.

Lemma length_octets_ok n : 0 <= n < max_length -> bytes_ok (ASN1HEX.length_octets n).
Proof.
  intros Hn. unfold ASN1HEX.length_octets.
  destruct (Z.ltb_spec n 128) as [Hs | Hl].
  - repeat constructor; lia.
  - constructor; [| apply be_bytes_ok].
    pose proof (be_bytes_length n). pose proof (log2_below_max n). lia.
Qed.

Lemma length_octets_length n :
  0 <= n < max_length -> Z.of_nat (List.length (ASN1HEX.length_octets n)) <= 128.
Proof.
  intros Hn. unfold ASN1HEX.length_octets.
  destruct (Z.ltb_spec n 128) as [Hs | Hl]; cbn [List.length].
  - lia.
  - pose proof (be_bytes_length n). pose proof (log2_below_max n). lia.
Qed.

Lemma parse_length_octets n rest :
  0 <= n ->
  Spec.parse_length (ASN1HEX.length_octets n ++ rest) = Some (n, rest).
Proof.
  intros Hn. unfold ASN1HEX.length_octets.
  destruct (Z.ltb_spec n 128) as [Hs | Hl].
  - cbn. destruct (Z.ltb_spec n 128); [reflexivity | lia].
  - set (bs := ASN1HEX.be_bytes n).
    assert (Hne : bs <> []) by (apply be_bytes_nonempty; lia).
    cbn [app Spec.parse_length].
    destruct (Z.ltb_spec (128 + Z.of_nat (List.length bs)) 128); [lia |].
    replace (Z.to_nat (128 + Z.of_nat (List.length bs) - 128))
      with (List.length bs) by lia.
    destruct (Nat.eqb_spec (List.length bs) 0) as [H0 | _].
    { destruct bs; [congruence | discriminate]. }
    destruct (Nat.ltb_spec (List.length (bs ++ rest)) (List.length bs)) as [Hlt | _].
    { rewrite length_app in Hlt. lia. }
    destruct (firstn_skipn_app bs rest) as [-> ->].
    unfold bs. now rewrite be_bytes_value.
Qed.

Lemma parse_tlv_tlv tag c rest :
  Spec.parse_tlv (ASN1HEX.tlv tag c ++ rest) = Some (tag, c, rest).
Proof.
  unfold ASN1HEX.tlv. cbn [app Spec.parse_tlv].
  rewrite <- app_assoc, parse_length_octets by lia.
  destruct (Z.ltb_spec (Z.of_nat (List.length (c ++ rest)))
              (Z.of_nat (List.length c))) as [Hlt | _].
  { rewrite length_app in Hlt. lia. }
  rewrite Nat2Z.id.
  destruct (firstn_skipn_app c rest) as [-> ->]. reflexivity.
Qed.

Lemma tlv_ok tag c :
  0 <= tag < 256 -> bytes_ok c -> Z.of_nat (List.length c) < max_length ->
  bytes_ok (ASN1HEX.tlv tag c).
Proof.
  intros Htag Hc Hlen. unfold ASN1HEX.tlv. constructor; [assumption |].
  apply Forall_app. split; [apply length_octets_ok; lia | assumption].
Qed.

Lemma tlv_length tag c :
  Z.of_nat (List.length c) < max_length ->
  Z.of_nat (List.length (ASN1HEX.tlv tag c)) <= Z.of_nat (List.length c) + 129.
Proof.
  intros Hlen. unfold ASN1HEX.tlv. cbn [List.length]. rewrite length_app.
  pose proof (length_octets_length (Z.of_nat (List.length c))). lia.
Qed.

(** The container of two integers decodes to its two fields. *)
Lemma two_fields_encode r s :
  Z.log2 r < 2 ^ 100 -> Z.log2 s < 2 ^ 100 ->
  Spec.two_fields
    (ASN1Util.jsonToASN1HEX (Jseq [Jint_bigint r; Jint_bigint s])) =
  Some ((ASN1HEX.tag_INTEGER, ASN1HEX.unsigned_content r),
        (ASN1HEX.tag_INTEGER, ASN1HEX.unsigned_content s)).
Proof.
  intros Hr Hs.
  unfold ASN1Util.jsonToASN1HEX, Spec.two_fields.
  cbn [ASN1HEX.encode List.map List.concat]. rewrite app_nil_r.
  set (cr := ASN1HEX.unsigned_content r).
  set (cs := ASN1HEX.unsigned_content s).
  pose proof (unsigned_content_length r) as Hlr. fold cr in Hlr.
  pose proof (unsigned_content_length s) as Hls. fold cs in Hls.
  assert (Hbig : 2 ^ 100 + 2 ^ 100 + 300 < max_length)
    by (unfold max_length; vm_compute; reflexivity).
  assert (Hcr : Z.of_nat (List.length cr) < max_length) by lia.
  assert (Hcs : Z.of_nat (List.length cs) < max_length) by lia.
  pose proof (tlv_length ASN1HEX.tag_INTEGER cr Hcr) as Htr.
  pose proof (tlv_length ASN1HEX.tag_INTEGER cs Hcs) as Hts.
  set (body := ASN1HEX.tlv ASN1HEX.tag_INTEGER cr ++ ASN1HEX.tlv ASN1HEX.tag_INTEGER cs).
  assert (Hbody : Z.of_nat (List.length body) < max_length)
    by (unfold body; rewrite length_app; lia).
  assert (Hok : bytes_ok (ASN1HEX.tlv ASN1HEX.tag_SEQUENCE body)).
  { apply tlv_ok; [unfold ASN1HEX.tag_SEQUENCE; lia | | assumption].
    apply Forall_app; split; apply tlv_ok;
      solve [ unfold ASN1HEX.tag_INTEGER; lia
            | apply unsigned_content_ok | assumption ]. }
  rewrite (bytes_of_hex_of_bytes _ Hok).
  rewrite <- (app_nil_r (ASN1HEX.tlv ASN1HEX.tag_SEQUENCE body)), parse_tlv_tlv.
  rewrite Z.eqb_refl. unfold body. rewrite parse_tlv_tlv.
  rewrite <- (app_nil_r (ASN1HEX.tlv ASN1HEX.tag_INTEGER cs)), parse_tlv_tlv.
  reflexivity.
Qed.

(** ** The accessor on the signer's container *)

Lemma append_nil_r (s : string) : (s ++ "")%string = s.
Proof. induction s as [| c s IH]; cbn; [reflexivity | now rewrite IH]. Qed.

Lemma append_assoc (s1 s2 s3 : string) :
  ((s1 ++ s2) ++ s3)%string = (s1 ++ (s2 ++ s3))%string.
Proof. induction s1 as [| c s1 IH]; cbn; [reflexivity | now rewrite IH]. Qed.

Lemma hex_of_bytes_app a b :
  ASN1HEX.hex_of_bytes (a ++ b) =
  (ASN1HEX.hex_of_bytes a ++ ASN1HEX.hex_of_bytes b)%string.
Proof. induction a as [| x a IH]; cbn; [reflexivity | now rewrite IH]. Qed.

Lemma hex_of_bytes_length bs :
  String.length (ASN1HEX.hex_of_bytes bs) = (2 * List.length bs)%nat.
Proof. induction bs as [| b bs IH]; cbn [ASN1HEX.hex_of_bytes String.length List.length]; lia. Qed.

Lemma substring_0_app s1 s2 :
  String.substring 0 (String.length s1) (s1 ++ s2) = s1.
Proof.
  induction s1 as [| c s1 IH]; cbn.
  - destruct s2; reflexivity.
  - now rewrite IH.
Qed.

Lemma substring_0_hex bs s :
  String.substring 0 (2 * List.length bs) (ASN1HEX.hex_of_bytes bs ++ s) =
  ASN1HEX.hex_of_bytes bs.
Proof. rewrite <- hex_of_bytes_length. apply substring_0_app. Qed.

Lemma ofHex_byte b : 0 <= b < 256 -> BigInteger.ofHex (ASN1HEX.hex_of_bytes [b]) = b.
Proof.
  intros Hb. rewrite ofHex_hex_of_bytes by (repeat constructor; lia).
  cbn. lia.
Qed.

Lemma append_length (s1 s2 : string) :
  String.length (s1 ++ s2) = (String.length s1 + String.length s2)%nat.
Proof. induction s1 as [| c s1 IH]; cbn; [reflexivity | now rewrite IH]. Qed.

Lemma substring_app_off pre rest j m :
  String.substring (String.length pre + j) m (pre ++ rest) = String.substring j m rest.
Proof. induction pre as [| c pre IH]; cbn; [reflexivity | exact IH]. Qed.

(** [substr] after a known prefix. *)
Lemma substr_off pre rest (j : nat) idx len :
  idx = Z.of_nat (String.length pre) + Z.of_nat j ->
  substr (pre ++ rest) idx len = String.substring j (Z.to_nat len) rest.
Proof.
  intros ->. unfold substr.
  destruct (Z.ltb_spec (Z.of_nat (String.length pre) + Z.of_nat j) 0); [lia |].
  rewrite <- Nat2Z.inj_add, Nat2Z.id. apply substring_app_off.
Qed.

Lemma intValue_small a : 0 <= a < 2 ^ 31 -> BigInteger.intValue a = a.
Proof.
  intros Ha. unfold BigInteger.intValue.
  change (2 ^ 31) with 2147483648 in *. change (2 ^ 32) with 4294967296.
  rewrite Z.mod_small by lia. lia.
Qed.

Lemma engine_holds_spec s :
  engine_holds s = true <-> Z.of_nat (String.length s) < 2 ^ 31.
Proof. unfold engine_holds. apply Z.ltb_lt. Qed.

Lemma le_bytes_count fuel n k :
  n < 256 ^ Z.of_nat k -> (List.length (ASN1HEX.le_bytes fuel n) <= k)%nat.
Proof.
  revert n k. induction fuel as [| fuel IH]; intros n k Hn; cbn [ASN1HEX.le_bytes].
  - cbn. lia.
  - destruct (Z.leb_spec n 0) as [H0 | Hpos]; cbn [List.length]; [lia |].
    destruct k as [| k]; [cbn in Hn; lia |].
    rewrite Nat2Z.inj_succ, Z.pow_succ_r in Hn by lia.
    specialize (IH (n / 256) k).
    assert (n / 256 < 256 ^ Z.of_nat k) by (apply Z.div_lt_upper_bound; lia).
    lia.
Qed.

Lemma be_bytes_count n k :
  n < 256 ^ Z.of_nat k -> (List.length (ASN1HEX.be_bytes n) <= k)%nat.
Proof.
  intros Hn. unfold ASN1HEX.be_bytes. rewrite length_rev.
  now apply le_bytes_count.
Qed.

Lemma digit_not_8 d :
  0 <= d < 8 -> String.eqb (String (ASN1HEX.hexdigit d) "") "8" = false.
Proof.
  intros Hd.
  assert (H : d = 0 \/ d = 1 \/ d = 2 \/ d = 3 \/ d = 4 \/ d = 5 \/ d = 6 \/ d = 7)
    by lia.
  repeat (destruct H as [-> | H]; [reflexivity |]). subst d. reflexivity.
Qed.

Lemma parseInt_digit k :
  1 <= k <= 9 -> parseInt (String (ASN1HEX.hexdigit k) "") = Some k.
Proof.
  intros Hk.
  assert (H : k = 1 \/ k = 2 \/ k = 3 \/ k = 4 \/ k = 5 \/ k = 6 \/ k = 7 \/
              k = 8 \/ k = 9) by lia.
  repeat (destruct H as [-> | H]; [reflexivity |]). subst k. reflexivity.
Qed.

Lemma parseInt_letter k :
  10 <= k <= 15 ->
  parseInt (String (ASN1HEX.hexdigit k) "") = None /\
  BigInteger.ofHex (String (ASN1HEX.hexdigit k) "") = k.
Proof.
  intros Hk.
  assert (H : k = 10 \/ k = 11 \/ k = 12 \/ k = 13 \/ k = 14 \/ k = 15) by lia.
  repeat (destruct H as [-> | H]; [split; reflexivity |]). subst k.
  split; reflexivity.
Qed.

Lemma substring_0_1 c s : String.substring 0 1 (String c s) = String c "".
Proof. destruct s; reflexivity. Qed.

Lemma substring_0_2 c1 c2 s :
  String.substring 0 2 (String c1 (String c2 s)) = String c1 (String c2 "").
Proof. destruct s; reflexivity. Qed.

Lemma substring_skip2 m a b s :
  String.substring 2 m (String a (String b s)) = String.substring 0 m s.
Proof. reflexivity. Qed.

Lemma substr_0 s len : substr s 0 len = String.substring 0 (Z.to_nat len) s.
Proof. reflexivity. Qed.

(** The length bytes that the encoder writes are read back as the length,
    by [getLblen] as their number and by [getVblen] as their value. *)
Lemma length_at pre a b n post h :
  h = (pre ++ String a (String b
         (ASN1HEX.hex_of_bytes (ASN1HEX.length_octets n) ++ post)))%string ->
  0 <= n < 2 ^ 120 ->
  (engine_holds h = true -> n < 2 ^ 31) ->
  ASN1HEX.getLblen h (Z.of_nat (String.length pre)) =
    Z.of_nat (List.length (ASN1HEX.length_octets n)) /\
  ASN1HEX.getVblen h (Z.of_nat (String.length pre)) = n.
Proof.
  intros Hh Hn Hheld.
  set (idx := Z.of_nat (String.length pre)).
  assert (Hguard : (if engine_holds h then BigInteger.intValue n else n) = n).
  { destruct (engine_holds h); [| reflexivity].
    apply intValue_small. split; [lia | now apply Hheld]. }
  assert (Hsub : forall (j : nat) len,
             substr h (idx + Z.of_nat j) len =
             String.substring j (Z.to_nat len)
               (String a (String b
                  (ASN1HEX.hex_of_bytes (ASN1HEX.length_octets n) ++ post)))).
  { intros j len. rewrite Hh. now apply substr_off. }
  unfold ASN1HEX.length_octets in *.
  destruct (Z.ltb_spec n 128) as [Hs | Hl].
  - destruct (byte_nibbles n ltac:(lia)) as (Hhi & Hlo & Hsum).
    assert (Hd : 0 <= n / 16 < 8) by lia.
    set (c1 := ASN1HEX.hexdigit (n / 16)) in *.
    set (c2 := ASN1HEX.hexdigit (n mod 16)) in *.
    assert (F1 : substr h (idx + 2) 1 = String c1 "").
    { rewrite (Hsub 2%nat). apply substring_0_1. }
    assert (F2 : substr h (idx + 2) (1 * 2) = String c1 (String c2 "")).
    { rewrite (Hsub 2%nat). apply substring_0_2. }
    assert (Hlb : ASN1HEX.getLblen h idx = 1).
    { unfold ASN1HEX.getLblen. rewrite F1. unfold c1. now rewrite digit_not_8. }
    split; [exact Hlb |].
    unfold ASN1HEX.getVblen, ASN1HEX.getL. rewrite Hlb.
    change (1 <? 1) with false. cbv iota. rewrite F2.
    change (String.eqb (String c1 (String c2 "")) "") with false. cbv iota.
    rewrite substr_0. change (Z.to_nat 1) with 1%nat. rewrite substring_0_1.
    assert (H8 : String.eqb (String c1 "") "8" = false) by (now apply digit_not_8).
    rewrite !H8.
    change (String c1 (String c2 "")) with (ASN1HEX.hex_of_bytes [n]).
    rewrite ofHex_byte by lia. exact Hguard.
  - set (bs := ASN1HEX.be_bytes n) in *.
    assert (Hne : bs <> []) by (apply be_bytes_nonempty; lia).
    assert (Hk15 : (List.length bs <= 15)%nat).
    { apply be_bytes_count. change (256 ^ Z.of_nat 15) with (2 ^ 120). lia. }
    assert (Hk1 : (1 <= List.length bs)%nat).
    { destruct bs; [congruence | cbn; lia]. }
    set (k := Z.of_nat (List.length bs)) in *.
    assert (Hk : 1 <= k <= 15) by (unfold k; lia).
    assert (Hhi : (128 + k) / 16 = 8)
      by (symmetry; apply (Z.div_unique (128 + k) 16 8 k); lia).
    assert (Hlo : (128 + k) mod 16 = k)
      by (symmetry; apply (Z.mod_unique (128 + k) 16 8 k); lia).
    cbn [ASN1HEX.hex_of_bytes String.append] in Hsub. rewrite Hhi, Hlo in Hsub.
    set (ck := ASN1HEX.hexdigit k) in *.
    assert (F1 : substr h (idx + 2) 1 = "8").
    { rewrite (Hsub 2%nat). apply substring_0_1. }
    assert (F3 : substr h (idx + 3) 1 = String ck "").
    { rewrite (Hsub 3%nat). apply substring_0_1. }
    assert (Hlb : ASN1HEX.getLblen h idx = k + 1).
    { unfold ASN1HEX.getLblen. rewrite F1, F3.
      change (negb (String.eqb "8" "8")) with false. cbv iota. unfold ck.
      destruct (Z.le_gt_cases k 9) as [H9 | H10].
      - rewrite parseInt_digit by lia.
        destruct (Z.eqb_spec k 0); [lia | reflexivity].
      - destruct (parseInt_letter k ltac:(lia)) as [-> ->].
        destruct (engine_holds h) eqn:Heng.
        + exfalso. specialize (Hheld eq_refl).
          assert (Hk4 : (List.length bs <= 4)%nat).
          { apply be_bytes_count. change (256 ^ Z.of_nat 4) with (2 ^ 32).
            change (2 ^ 31) with 2147483648 in Hheld.
            change (2 ^ 32) with 4294967296. lia. }
          lia.
        + destruct (Z.ltb_spec 0 k); [reflexivity | lia]. }
    split; [rewrite Hlb; cbn [List.length]; lia |].
    assert (F2 : substr h (idx + 2) ((k + 1) * 2) =
                 String "8" (String ck (ASN1HEX.hex_of_bytes bs))).
    { rewrite (Hsub 2%nat), substring_skip2.
      change (String (ASN1HEX.hexdigit 8)
                (String ck (ASN1HEX.hex_of_bytes bs ++ post)))
        with ((String "8" (String ck "")) ++ (ASN1HEX.hex_of_bytes bs ++ post))%string.
      rewrite <- append_assoc.
      replace (Z.to_nat ((k + 1) * 2))
        with (String.length (String "8" (String ck "") ++ ASN1HEX.hex_of_bytes bs)%string)
        by (rewrite append_length, hex_of_bytes_length; cbn [String.length]; lia).
      rewrite substring_0_app. reflexivity. }
    unfold ASN1HEX.getVblen, ASN1HEX.getL. rewrite Hlb.
    destruct (Z.ltb_spec (k + 1) 1); [lia |]. rewrite F2.
    change (String.eqb (String "8" (String ck (ASN1HEX.hex_of_bytes bs))) "")
      with false. cbv iota.
    rewrite substr_0. change (Z.to_nat 1) with 1%nat. rewrite substring_0_1.
    change (String.eqb "8" "8") with true. cbv iota.
    unfold substr. change (2 <? 0) with false. cbv iota.
    change (Z.to_nat 2) with 2%nat. rewrite substring_skip2.
    rewrite Nat2Z.id, substring_all
      by (cbn [String.length]; lia).
    rewrite ofHex_hex_of_bytes by apply be_bytes_ok.
    unfold bs. rewrite be_bytes_value by lia. exact Hguard.
Qed.

(** A field that the encoder writes, found at its position in any
    string: its tag, its value, and where the next field starts. *)
Lemma field_at pre tag c post h :
  h = (pre ++ ASN1HEX.hex_of_bytes (ASN1HEX.tlv tag c) ++ post)%string ->
  Z.of_nat (List.length c) < 2 ^ 120 ->
  let idx := Z.of_nat (String.length pre) in
  substr h idx 2 = ASN1HEX.hex_of_bytes [tag] /\
  ASN1HEX.getVblen h idx = Z.of_nat (List.length c) /\
  ASN1HEX.getVidx h idx =
    idx + 2 + 2 * Z.of_nat (List.length (ASN1HEX.length_octets (Z.of_nat (List.length c)))) /\
  ASN1HEX.getV h idx = ASN1HEX.hex_of_bytes c /\
  ASN1HEX.getNextSiblingIdx h idx =
    idx + 2 * Z.of_nat (List.length (ASN1HEX.tlv tag c)).
Proof.
  intros Hh Hlen idx.
  set (L := ASN1HEX.length_octets (Z.of_nat (List.length c))) in *.
  set (t1 := ASN1HEX.hexdigit (tag / 16)).
  set (t2 := ASN1HEX.hexdigit (tag mod 16)).
  assert (Hh1 : h = (pre ++ String t1 (String t2
                        (ASN1HEX.hex_of_bytes L ++ ASN1HEX.hex_of_bytes c ++ post)))%string).
  { rewrite Hh. unfold ASN1HEX.tlv. cbn [ASN1HEX.hex_of_bytes String.append].
    now rewrite hex_of_bytes_app, append_assoc. }
  assert (Hh2 : h = ((pre ++ String t1 (String t2 (ASN1HEX.hex_of_bytes L))) ++
                     (ASN1HEX.hex_of_bytes c ++ post))%string).
  { rewrite Hh1, append_assoc. reflexivity. }
  assert (Hsize : Z.of_nat (String.length h) >= 2 * Z.of_nat (List.length c)).
  { rewrite Hh2, !append_length, hex_of_bytes_length. lia. }
  assert (Hheld : engine_holds h = true -> Z.of_nat (List.length c) < 2 ^ 31).
  { intros He. apply engine_holds_spec in He. lia. }
  destruct (length_at pre t1 t2 (Z.of_nat (List.length c))
              (ASN1HEX.hex_of_bytes c ++ post) h Hh1 ltac:(lia) Hheld)
    as [Hlb Hvb].
  fold idx in Hlb, Hvb. fold L in Hlb.
  assert (Hvi : ASN1HEX.getVidx h idx = idx + 2 + 2 * Z.of_nat (List.length L)).
  { unfold ASN1HEX.getVidx. rewrite Hlb.
    destruct (Z.ltb_spec (Z.of_nat (List.length L)) 0); lia. }
  assert (Hv : ASN1HEX.getV h idx = ASN1HEX.hex_of_bytes c).
  { unfold ASN1HEX.getV. rewrite Hvi, Hvb. rewrite Hh2 at 1.
    rewrite (substr_off _ _ 0%nat)
      by (rewrite append_length; cbn [String.length];
          rewrite hex_of_bytes_length; unfold idx; lia).
    replace (Z.to_nat (Z.of_nat (List.length c) * 2)) with (2 * List.length c)%nat by lia.
    apply substring_0_hex. }
  split.
  { rewrite Hh1 at 1. rewrite (substr_off _ _ 0%nat) by (unfold idx; lia).
    apply substring_0_2. }
  split; [exact Hvb |]. split; [exact Hvi |]. split; [exact Hv |].
  unfold ASN1HEX.getNextSiblingIdx. rewrite Hvi, Hvb.
  unfold ASN1HEX.tlv. fold L. cbn [List.length]. rewrite length_app. lia.
Qed.


Lemma siblings_S k h p0 blen p :
  ASN1HEX.siblings (S k) h p0 blen p =
  if ASN1HEX.getNextSiblingIdx h p - p0 >=? blen * 2 then []
  else ASN1HEX.getNextSiblingIdx h p ::
       ASN1HEX.siblings k h p0 blen (ASN1HEX.getNextSiblingIdx h p).
Proof. reflexivity. Qed.

(** The accessor finds the two integers of the signer's container. *)
Lemma getVbyList_encode r s :
  Z.log2 r < 2 ^ 100 -> Z.log2 s < 2 ^ 100 ->
  let h := ASN1Util.jsonToASN1HEX (Jseq [Jint_bigint r; Jint_bigint s]) in
  ASN1HEX.getVbyList h 0 [0] "02" =
    Ok (ASN1HEX.hex_of_bytes (ASN1HEX.unsigned_content r)) /\
  ASN1HEX.getVbyList h 0 [1] "02" =
    Ok (ASN1HEX.hex_of_bytes (ASN1HEX.unsigned_content s)).
Proof.
  intros Hr Hs h. subst h.
  unfold ASN1Util.jsonToASN1HEX.
  cbn [ASN1HEX.encode List.map List.concat]. rewrite app_nil_r.
  set (cr := ASN1HEX.unsigned_content r).
  set (cs := ASN1HEX.unsigned_content s).
  pose proof (unsigned_content_length r) as Hlr. fold cr in Hlr.
  pose proof (unsigned_content_length s) as Hls. fold cs in Hls.
  assert (Hbig : 2 ^ 100 + 2 ^ 100 + 300 < 2 ^ 120) by (vm_compute; reflexivity).
  assert (Hmax : 2 ^ 120 < max_length) by (vm_compute; reflexivity).
  assert (H100 : 0 < 2 ^ 100) by (vm_compute; reflexivity).
  assert (Hcr : Z.of_nat (List.length cr) < 2 ^ 120) by lia.
  assert (Hcs : Z.of_nat (List.length cs) < 2 ^ 120) by lia.
  pose proof (tlv_length ASN1HEX.tag_INTEGER cr ltac:(lia)) as Htr.
  pose proof (tlv_length ASN1HEX.tag_INTEGER cs ltac:(lia)) as Hts.
  set (fr := ASN1HEX.tlv ASN1HEX.tag_INTEGER cr) in *.
  set (fs := ASN1HEX.tlv ASN1HEX.tag_INTEGER cs) in *.
  assert (Hfs : (0 < List.length fs)%nat) by (unfold fs, ASN1HEX.tlv; cbn [List.length]; lia).
  assert (Hbody : Z.of_nat (List.length (fr ++ fs)) < 2 ^ 120)
    by (rewrite length_app; lia).
  set (L0 := ASN1HEX.length_octets (Z.of_nat (List.length (fr ++ fs)))).
  set (h := ASN1HEX.hex_of_bytes (ASN1HEX.tlv ASN1HEX.tag_SEQUENCE (fr ++ fs))).
  set (pre0 := ASN1HEX.hex_of_bytes (ASN1HEX.tag_SEQUENCE :: L0)).
  assert (Hh0 : h = ("" ++ ASN1HEX.hex_of_bytes
                             (ASN1HEX.tlv ASN1HEX.tag_SEQUENCE (fr ++ fs)) ++ "")%string)
    by (cbn [String.append]; now rewrite append_nil_r).
  assert (Hh1 : h = (pre0 ++ ASN1HEX.hex_of_bytes fr ++ ASN1HEX.hex_of_bytes fs)%string).
  { unfold h, pre0, ASN1HEX.tlv. fold L0.
    change (ASN1HEX.tag_SEQUENCE :: L0 ++ fr ++ fs)
      with ((ASN1HEX.tag_SEQUENCE :: L0) ++ fr ++ fs).
    now rewrite !hex_of_bytes_app. }
  assert (Hh2 : h = ((pre0 ++ ASN1HEX.hex_of_bytes fr) ++
                     ASN1HEX.hex_of_bytes fs ++ "")%string).
  { rewrite Hh1, append_assoc, append_nil_r. reflexivity. }
  destruct (field_at "" ASN1HEX.tag_SEQUENCE (fr ++ fs) "" h Hh0 Hbody)
    as (Htag0 & Hvb0 & Hvi0 & _ & _).
  destruct (field_at pre0 ASN1HEX.tag_INTEGER cr (ASN1HEX.hex_of_bytes fs) h Hh1 Hcr)
    as (Htag1 & _ & _ & Hv1 & Hn1).
  destruct (field_at (pre0 ++ ASN1HEX.hex_of_bytes fr) ASN1HEX.tag_INTEGER cs "" h
              Hh2 Hcs) as (Htag2 & _ & _ & Hv2 & Hn2).
  fold L0 in Hvi0. cbn [String.length] in Htag0, Hvb0, Hvi0.
  change (Z.of_nat 0) with 0 in *.
  set (P := Z.of_nat (String.length pre0)) in *.
  set (Q := Z.of_nat (String.length (pre0 ++ ASN1HEX.hex_of_bytes fr)%string)) in *.
  assert (HP : P = 0 + 2 + 2 * Z.of_nat (List.length L0)).
  { unfold P, pre0. rewrite hex_of_bytes_length. cbn [List.length]. lia. }
  assert (HQ : Q = P + 2 * Z.of_nat (List.length fr)).
  { unfold Q, P. rewrite append_length, hex_of_bytes_length. lia. }
  rewrite <- HP in Hvi0. fold fr in Hn1. fold fs in Hn2. rewrite <- HQ in Hn1.
  assert (Hchildren : ASN1HEX.getChildIdx h 0 = [P; Q]).
  { unfold ASN1HEX.getChildIdx. rewrite Htag0, Hvi0, Hvb0.
    change (String.eqb (ASN1HEX.hex_of_bytes [ASN1HEX.tag_SEQUENCE]) "03") with false.
    cbv iota. f_equal.
    change 200%nat with (S (S 198)).
    rewrite siblings_S, Hn1, Z.geb_leb.
    destruct (Z.leb_spec (Z.of_nat (List.length (fr ++ fs)) * 2) (Q - P)) as [Hle | _].
    { rewrite length_app in Hle. lia. }
    f_equal. rewrite siblings_S, Hn2, Z.geb_leb.
    destruct (Z.leb_spec (Z.of_nat (List.length (fr ++ fs)) * 2)
                (Q + 2 * Z.of_nat (List.length fs) - P)) as [_ | Hgt];
      [reflexivity |].
    rewrite length_app in Hgt. lia. }
  unfold ASN1HEX.getVbyList. cbn [ASN1HEX.getIdxbyList]. rewrite Hchildren.
  change (0 <? 0) with false. change (1 <? 0) with false. cbv iota.
  change (nth_error [P; Q] (Z.to_nat 0)) with (Some P).
  change (nth_error [P; Q] (Z.to_nat 1)) with (Some Q).
  cbv beta iota.
  rewrite Htag1, Htag2, Hv1, Hv2.
  change (negb (String.eqb (ASN1HEX.hex_of_bytes [ASN1HEX.tag_INTEGER]) "02"))
    with false.
  split; reflexivity.
Qed.

Lemma parse_encode r s w :
  0 <= r -> 0 <= s -> Z.log2 r < 2 ^ 100 -> Z.log2 s < 2 ^ 100 ->
  DSA.parseASN1Signature
    (ASN1Util.jsonToASN1HEX (Jseq [Jint_bigint r; Jint_bigint s])) w =
  (Ok (r, s), w).
Proof.
  intros Hr Hs Hlr Hls.
  destruct (getVbyList_encode r s Hlr Hls) as [H0 H1].
  unfold DSA.parseASN1Signature, DSA.try_catch, DSA.bind, DSA.call, DSA.ret.
  rewrite H0, H1.
  rewrite !ofHex_hex_of_bytes by apply unsigned_content_ok.
  now rewrite !unsigned_content_value.
Qed.

(** C5: for [0 < r < q] and [0 < s < q], [parseASN1Signature] applied to
    the hexadecimal container that the signer builds with [jsonToASN1HEX]
    from [r] and [s] returns exactly [(r, s)].  (The bound on the bit
    length of [q] keeps every length prefix within the 127 bytes its first
    byte can announce.) *)
Theorem parse_encoded_signature (r s qv : Z) (w : DSA.World) :
  0 < r < qv -> 0 < s < qv -> Z.log2 qv < 2 ^ 100 ->
  DSA.parseASN1Signature
    (ASN1Util.jsonToASN1HEX (Jseq [Jint_bigint r; Jint_bigint s])) w =
  (Ok (r, s), w).
Proof.
  intros Hr Hs Hq.
  assert (Z.log2 r <= Z.log2 qv) by (apply Z.log2_le_mono; lia).
  assert (Z.log2 s <= Z.log2 qv) by (apply Z.log2_le_mono; lia).
  apply parse_encode; lia.
Qed.

Lemma parse_encoded_signature_witness :
  DSA.parseASN1Signature
    (ASN1Util.jsonToASN1HEX (Jseq [Jint_bigint 200; Jint_bigint 77]))
    (Examples.world Examples.key23 0) =
  (Ok (200, 77), Examples.world Examples.key23 0).
Proof.
  apply (parse_encoded_signature 200 77 211 (Examples.world Examples.key23 0));
    [lia | lia | vm_compute; reflexivity].
Defined.

(** ** The decoder of the specification and the two-integer containers *)

Lemma fold_bytes_nonneg bs :
  bytes_ok bs ->
  forall acc, 0 <= acc -> 0 <= fold_left (fun a b => a * 256 + b) bs acc.
Proof.
  induction 1 as [| b bs Hb _ IH]; intros acc Hacc; cbn [fold_left].
  - exact Hacc.
  - apply IH. lia.
Qed.

Lemma be_value_nonneg bs : bytes_ok bs -> 0 <= ASN1HEX.be_value bs.
Proof. intros H. apply (fold_bytes_nonneg bs H 0). lia. Qed.

Lemma bytes_ok_firstn n bs : bytes_ok bs -> bytes_ok (firstn n bs).
Proof.
  intros H. apply Forall_forall. intros b Hb.
  eapply Forall_forall in H; [exact H |].
  rewrite <- (firstn_skipn n bs). apply in_or_app. now left.
Qed.

Lemma bytes_ok_skipn n bs : bytes_ok bs -> bytes_ok (skipn n bs).
Proof.
  intros H. apply Forall_forall. intros b Hb.
  eapply Forall_forall in H; [exact H |].
  rewrite <- (firstn_skipn n bs). apply in_or_app. now right.
Qed.

Lemma parse_length_sound bs n rest :
  bytes_ok bs -> Spec.parse_length bs = Some (n, rest) ->
  0 <= n /\ bytes_ok rest /\
  exists lp, Spec.length_prefix n lp /\ bs = lp ++ rest.
Proof.
  intros Hok Hp. destruct bs as [| b rest0]; [discriminate |].
  inversion Hok as [| ? ? Hb Hrest0]; subst.
  cbn [Spec.parse_length] in Hp.
  destruct (Z.ltb_spec b 128) as [Hs | Hl].
  - injection Hp as <- <-. repeat split; [lia | assumption |].
    exists [b]. split; [now constructor | reflexivity].
  - set (k := Z.to_nat (b - 128)) in *.
    destruct (Nat.eqb_spec k 0) as [| Hk]; [discriminate |].
    destruct (Nat.ltb_spec (List.length rest0) k) as [| Hlen]; [discriminate |].
    injection Hp as <- <-.
    assert (Hfl : List.length (firstn k rest0) = k) by (apply firstn_length_le; lia).
    repeat split.
    + apply be_value_nonneg, bytes_ok_firstn, Hrest0.
    + apply bytes_ok_skipn, Hrest0.
    + exists (b :: firstn k rest0). split.
      * replace b with (128 + Z.of_nat (List.length (firstn k rest0))) by lia.
        constructor. intros Hnil. rewrite Hnil in Hfl. cbn in Hfl. lia.
      * cbn [app]. now rewrite firstn_skipn.
Qed.

Lemma parse_tlv_sound bs tag c rest :
  bytes_ok bs -> Spec.parse_tlv bs = Some (tag, c, rest) ->
  bytes_ok c /\ bytes_ok rest /\
  exists f, Spec.field tag c f /\ bs = f ++ rest.
Proof.
  intros Hok Hp. destruct bs as [| t rest0]; [discriminate |].
  inversion Hok as [| ? ? Ht Hrest0]; subst.
  cbn [Spec.parse_tlv] in Hp.
  destruct (Spec.parse_length rest0) as [[len rest1] |] eqn:Hlen;
    [| discriminate].
  destruct (parse_length_sound _ _ _ Hrest0 Hlen) as (Hlen0 & Hrest1 & lp & Hlp & ->).
  destruct (Z.ltb_spec (Z.of_nat (List.length rest1)) len) as [| Hge];
    [discriminate |].
  injection Hp as <- <- <-.
  assert (Hfl : List.length (firstn (Z.to_nat len) rest1) = Z.to_nat len)
    by (apply firstn_length_le; lia).
  repeat split.
  - apply bytes_ok_firstn, Hrest1.
  - apply bytes_ok_skipn, Hrest1.
  - exists (t :: lp ++ firstn (Z.to_nat len) rest1). split.
    + exists lp. split; [| reflexivity].
      rewrite Hfl, Z2Nat.id by assumption. exact Hlp.
    + cbn [app]. now rewrite <- app_assoc, firstn_skipn.
Qed.

Lemma parse_length_complete n lp rest :
  Spec.length_prefix n lp -> Spec.parse_length (lp ++ rest) = Some (n, rest).
Proof.
  intros [m Hm | lb Hne]; cbn [app Spec.parse_length].
  - destruct (Z.ltb_spec m 128); [reflexivity | lia].
  - destruct (Z.ltb_spec (128 + Z.of_nat (List.length lb)) 128); [lia |].
    replace (Z.to_nat (128 + Z.of_nat (List.length lb) - 128))
      with (List.length lb) by lia.
    destruct (Nat.eqb_spec (List.length lb) 0) as [H0 | _].
    { destruct lb; [congruence | discriminate]. }
    destruct (Nat.ltb_spec (List.length (lb ++ rest)) (List.length lb)) as [Hlt | _].
    { rewrite length_app in Hlt. lia. }
    destruct (firstn_skipn_app lb rest) as [-> ->]. reflexivity.
Qed.

Lemma parse_tlv_complete tag c f rest :
  Spec.field tag c f -> Spec.parse_tlv (f ++ rest) = Some (tag, c, rest).
Proof.
  intros (lp & Hlp & ->). cbn [app Spec.parse_tlv].
  rewrite <- app_assoc, (parse_length_complete _ _ _ Hlp).
  destruct (Z.ltb_spec (Z.of_nat (List.length (c ++ rest)))
              (Z.of_nat (List.length c))) as [Hlt | _].
  { rewrite length_app in Hlt. lia. }
  rewrite Nat2Z.id.
  destruct (firstn_skipn_app c rest) as [-> ->]. reflexivity.
Qed.

Lemma two_fields_sound h t1 c1 t2 c2 :
  Spec.two_fields h = Some ((t1, c1), (t2, c2)) ->
  exists bytes f1 f2,
    ASN1HEX.bytes_of_hex h = Some bytes /\
    Spec.field t1 c1 f1 /\ Spec.field t2 c2 f2 /\
    Spec.field ASN1HEX.tag_SEQUENCE (f1 ++ f2) bytes /\
    0 <= t1 < 256 /\ 0 <= t2 < 256.
Proof.
  unfold Spec.two_fields. intros H.
  destruct (ASN1HEX.bytes_of_hex h) as [bytes |] eqn:Hbytes; [| discriminate].
  pose proof (bytes_of_hex_ok _ _ Hbytes) as Hok.
  destruct (Spec.parse_tlv bytes) as [[[tag body] [| ? ?]] |] eqn:Hseq;
    try discriminate.
  destruct (Z.eqb_spec tag ASN1HEX.tag_SEQUENCE) as [-> | _]; [| discriminate].
  destruct (parse_tlv_sound _ _ _ _ Hok Hseq) as (Hbody & _ & f & Hf & Hbs).
  rewrite app_nil_r in Hbs. subst f.
  destruct (Spec.parse_tlv body) as [[[t1' c1'] rest1] |] eqn:H1;
    [| discriminate].
  destruct (parse_tlv_sound _ _ _ _ Hbody H1) as (_ & Hrest1 & f1 & Hf1 & Hb1).
  destruct (Spec.parse_tlv rest1) as [[[t2' c2'] [| ? ?]] |] eqn:H2;
    try discriminate.
  destruct (parse_tlv_sound _ _ _ _ Hrest1 H2) as (_ & _ & f2 & Hf2 & Hb2).
  rewrite app_nil_r in Hb2. subst rest1 body.
  injection H as <- <- <- <-.
  exists bytes, f1, f2. repeat split; trivial.
  all: destruct Hf1 as (? & _ & ->), Hf2 as (? & _ & ->);
    apply Forall_app in Hbody as [Hb1 Hb2];
    inversion Hb1; inversion Hb2; lia.
Qed.

Lemma two_fields_complete h :
  Spec.two_integer_sequence h ->
  exists c1 c2,
    Spec.two_fields h =
    Some ((ASN1HEX.tag_INTEGER, c1), (ASN1HEX.tag_INTEGER, c2)).
Proof.
  intros (bytes & c1 & c2 & f1 & f2 & Hbytes & Hf1 & Hf2 & Hseq).
  exists c1, c2. unfold Spec.two_fields. rewrite Hbytes.
  rewrite <- (app_nil_r bytes), (parse_tlv_complete _ _ _ _ Hseq).
  rewrite Z.eqb_refl, (parse_tlv_complete _ _ _ _ Hf1).
  rewrite <- (app_nil_r f2), (parse_tlv_complete _ _ _ _ Hf2). reflexivity.
Qed.

(** A container that is not a two-field sequence makes no pair. *)
Lemma not_two_integer_sequence h :
  (forall c1 c2,
      Spec.two_fields h <>
      Some ((ASN1HEX.tag_INTEGER, c1), (ASN1HEX.tag_INTEGER, c2))) ->
  ~ Spec.two_integer_sequence h.
Proof.
  intros Hno Hwf. destruct (two_fields_complete h Hwf) as (c1 & c2 & H).
  exact (Hno c1 c2 H).
Qed.

(** ** What [parseASN1Signature] lets through *)

(** C4 (failing inputs): [parseASN1Signature] asks only for the fields 0
    and 1 of the container and for their tag 02.  A container with a
    trailing byte, one with the wrong outer tag, one with three fields and
    one whose last value is cut off are not well-formed two-integer
    sequences, and each is decoded to the pair [(4, 0)] instead of being
    thrown out as malformed. *)
Theorem parse_accepts_malformed_containers :
  (~ Spec.two_integer_sequence "300602010402010000" /\
   fst (DSA.parseASN1Signature "300602010402010000"
          (Examples.world Examples.key23 0)) = Ok (4, 0)) /\
  (~ Spec.two_integer_sequence "3106020104020100" /\
   fst (DSA.parseASN1Signature "3106020104020100"
          (Examples.world Examples.key23 0)) = Ok (4, 0)) /\
  (~ Spec.two_integer_sequence "3009020104020100020101" /\
   fst (DSA.parseASN1Signature "3009020104020100020101"
          (Examples.world Examples.key23 0)) = Ok (4, 0)) /\
  (~ Spec.two_integer_sequence "30060201040201" /\
   fst (DSA.parseASN1Signature "30060201040201"
          (Examples.world Examples.key23 0)) = Ok (4, 0)).
Proof.
  repeat split;
    try (apply not_two_integer_sequence; intros c1 c2; vm_compute; discriminate);
    vm_compute; reflexivity.
Qed.

(** What the decoder does throw out: a field that does not carry the tag
    02, and a container with fewer than two fields. *)
Lemma parse_rejects_wrong_field :
  fst (DSA.parseASN1Signature "3006020104030100" (Examples.world Examples.key23 0))
    = Throw (Thrown "malformed ASN.1 DSA signature") /\
  fst (DSA.parseASN1Signature "3003020104" (Examples.world Examples.key23 0))
    = Throw (Thrown "malformed ASN.1 DSA signature") /\
  fst (DSA.parseASN1Signature "" (Examples.world Examples.key23 0))
    = Throw (Thrown "malformed ASN.1 DSA signature").
Proof. repeat split; vm_compute; reflexivity. Qed.

(** ** Arithmetic of the BigInteger operations *)

Lemma modPow_pos_spec a e m :
  0 < m -> BigInteger.modPow_pos a e m = a ^ Z.pos e mod m.
Proof.
  intros Hm. induction e as [e IH | e IH |]; cbn [BigInteger.modPow_pos].
  - rewrite IH, <- Z.mul_mod, Z.mul_mod_idemp_l by lia.
    f_equal. rewrite Pos2Z.inj_xI.
    replace (2 * Z.pos e + 1) with (Z.pos e + Z.pos e + 1) by lia.
    rewrite !Z.pow_add_r, Z.pow_1_r by lia. reflexivity.
  - rewrite IH, <- Z.mul_mod by lia.
    f_equal. rewrite Pos2Z.inj_xO.
    replace (2 * Z.pos e) with (Z.pos e + Z.pos e) by lia.
    rewrite Z.pow_add_r by lia. reflexivity.
  - now rewrite Z.pow_1_r.
Qed.

Lemma modPow_spec a e m :
  0 < m -> 0 <= e -> BigInteger.modPow a e m = a ^ e mod m.
Proof.
  intros Hm He. destruct e as [| e | e]; cbn [BigInteger.modPow].
  - reflexivity.
  - now apply modPow_pos_spec.
  - lia.
Qed.

(** A power of an element of order [q] depends on the exponent modulo [q]
    only. *)
Lemma pow_mod_order g q p a :
  0 < p -> 0 < q -> 0 <= a -> g ^ q mod p = 1 ->
  g ^ a mod p = g ^ (a mod q) mod p.
Proof.
  intros Hp Hq Ha Hord.
  pose proof (Z.mod_pos_bound a q Hq) as Hr.
  assert (Hd : 0 <= a / q) by (apply Z.div_pos; lia).
  rewrite (Z.div_mod a q) at 1 by lia.
  rewrite Z.pow_add_r, Z.pow_mul_r by lia.
  rewrite <- Z.mul_mod_idemp_l, <- Z.mod_pow_l, Hord by lia.
  rewrite Z.pow_1_l, Z.mul_mod_idemp_l, Z.mul_1_l by lia. reflexivity.
Qed.

Lemma egcd_spec fuel :
  forall a b d u v,
    0 <= b <= a ->
    b = 0 \/ Z.log2 a + Z.log2 b < Z.of_nat fuel ->
    BigInteger.egcd fuel a b = (d, u, v) ->
    u * a + v * b = d /\ d = Z.gcd a b.
Proof.
  induction fuel as [| fuel IH]; intros a b d u v Hab Hfuel Hrun.
  - assert (b = 0).
    { destruct Hfuel as [| Hlt]; [assumption |].
      pose proof (Z.log2_nonneg a). pose proof (Z.log2_nonneg b).
      cbn in Hlt. lia. }
    subst b. cbn in Hrun. injection Hrun as <- <- <-.
    rewrite Z.gcd_0_r_nonneg by lia. lia.
  - cbn [BigInteger.egcd] in Hrun.
    destruct (Z.eqb_spec b 0) as [-> | Hb].
    + injection Hrun as <- <- <-. rewrite Z.gcd_0_r_nonneg by lia. lia.
    + destruct (BigInteger.egcd fuel b (a mod b)) as [[d' u'] v'] eqn:Hrec.
      injection Hrun as <- <- <-.
      pose proof (Z.mod_pos_bound a b ltac:(lia)) as Hr.
      pose proof (Z.div_mod a b Hb) as Hdiv.
      assert (Hq1 : 1 <= a / b) by (apply Z.div_le_lower_bound; lia).
      destruct (IH b (a mod b) d' u' v') as [Hbez Hgcd]; trivial.
      * lia.
      * destruct (Z.eq_dec (a mod b) 0) as [| Hr0]; [now left | right].
        destruct Hfuel as [| Hlt]; [lia |].
        assert (Z.log2 (2 * (a mod b)) <= Z.log2 a)
          by (apply Z.log2_le_mono; nia).
        rewrite Z.log2_double in * by lia. lia.
      * split.
        -- rewrite <- Hbez. rewrite Hdiv at 1. ring.
        -- rewrite Hgcd, (Z.gcd_comm b), Z.gcd_mod by exact Hb.
           apply Z.gcd_comm.
Qed.

Lemma modInverse_spec a m :
  1 < m -> Z.gcd a m = 1 ->
  exists v,
    BigInteger.modInverse a m = Some v /\
    (a * v) mod m = 1 /\ 0 <= v < m.
Proof.
  intros Hm Hgcd. unfold BigInteger.modInverse.
  destruct (Z.eqb_spec a 0) as [-> | Ha].
  { rewrite Z.gcd_0_l in Hgcd. lia. }
  cbn [andb].
  destruct (Z.leb_spec m 1); [lia |].
  pose proof (Z.mod_pos_bound a m ltac:(lia)) as Hr.
  destruct (BigInteger.egcd _ m (a mod m)) as [[d u] v] eqn:Hrun.
  apply egcd_spec in Hrun as [Hbez Hd].
  - rewrite Z.gcd_comm, Z.gcd_mod, Z.gcd_comm, Hgcd in Hd by lia.
    rewrite Hd in Hbez |- *. clear Hd d.
    cbn [Z.eqb Pos.eqb]. exists (v mod m).
    split; [reflexivity |]. split; [| apply Z.mod_pos_bound; lia].
    rewrite Z.mul_mod_idemp_r, <- Z.mul_mod_idemp_l by lia.
    replace (a mod m * v) with (1 + (- u) * m) by lia.
    rewrite Z.mod_add by lia. apply Z.mod_1_l. lia.
  - lia.
  - right. pose proof (Z.log2_nonneg m). pose proof (Z.log2_nonneg (a mod m)). lia.
Qed.

Lemma no_divisor_sound fuel :
  forall n pv,
    0 < n -> Spec.no_divisor fuel n pv = true ->
    forall d, n <= d < n + Z.of_nat fuel -> ~ (d | pv).
Proof.
  induction fuel as [| fuel IH]; intros n pv Hn Hcheck d Hd; [lia |].
  cbn [Spec.no_divisor] in Hcheck. apply andb_prop in Hcheck as [Hhere Hrest].
  destruct (Z.eq_dec d n) as [-> | Hne].
  - intros Hdiv. apply Z.mod_divide in Hdiv; [| lia].
    rewrite Hdiv in Hhere. discriminate.
  - apply (IH (n + 1) pv); [lia | assumption | lia].
Qed.

Lemma prime_check_sound pv : Spec.prime_check pv = true -> Z.prime pv.
Proof.
  unfold Spec.prime_check. intros H. apply andb_prop in H as [H1 Hnd].
  apply Z.ltb_lt in H1. split; [assumption |].
  intros n Hn.
  apply (no_divisor_sound (Z.to_nat (pv - 2)) 2 pv); [lia | assumption | lia].
Qed.

Lemma prime_coprime qv a : Z.prime qv -> 0 < a < qv -> Z.gcd a qv = 1.
Proof.
  intros Hq Ha. rewrite Z.gcd_comm. apply Z.coprime_prime_small; [assumption | lia].
Qed.

(** ** Why a signature with non-zero [s] verifies *)

(** The algebra of FIPS 186-4 section 4.7 over the integers: with [k'] an
    inverse of [k] and [w] an inverse of [s] modulo [q], the verifier's
    [v] is the signer's [r]. *)
Lemma dsa_core p q g x k z k' w :
  0 < p -> 1 < q -> g ^ q mod p = 1 -> 0 < k < q -> 0 <= x ->
  (k * k') mod q = 1 ->
  let r := (g ^ k mod p) mod q in
  let s := (k' * (z + x * r)) mod q in
  (s * w) mod q = 1 ->
  let u1 := (z * w) mod q in
  let u2 := (r * w) mod q in
  ((g ^ u1 mod p * ((g ^ x mod p) ^ u2 mod p)) mod p) mod q = r.
Proof.
  intros Hp Hq Hord Hk Hx Hkk r s Hsw u1 u2.
  assert (Hu1 : 0 <= u1 < q) by (apply Z.mod_pos_bound; lia).
  assert (Hu2 : 0 <= u2 < q) by (apply Z.mod_pos_bound; lia).
  set (T := z + x * r) in *.
  assert (HT : (T * w) mod q = k).
  { unfold s in Hsw. rewrite Z.mul_mod_idemp_l in Hsw by lia.
    symmetry. transitivity ((k * ((k' * T * w) mod q)) mod q).
    - rewrite Hsw, Z.mul_1_r. symmetry. apply Z.mod_small. lia.
    - rewrite Z.mul_mod_idemp_r by lia.
      replace (k * (k' * T * w)) with (k * k' * (T * w)) by ring.
      rewrite <- Z.mul_mod_idemp_l, Hkk, Z.mul_1_l by lia. reflexivity. }
  assert (Hexp : (u1 + x * u2) mod q = k).
  { unfold u1, u2.
    rewrite Z.add_mod_idemp_l by lia.
    rewrite <- Z.add_mod_idemp_r, Z.mul_mod_idemp_r, Z.add_mod_idemp_r by lia.
    rewrite <- HT. f_equal. unfold T. ring. }
  rewrite Z.mod_pow_l, <- Z.mul_mod by lia.
  rewrite <- Z.pow_mul_r, <- Z.pow_add_r by nia.
  rewrite (pow_mod_order g q p (u1 + x * u2)) by (trivial; nia).
  rewrite Hexp. reflexivity.
Qed.

Lemma sign_with_k_run sHashHex pv gv xv qv k w :
  DSA.sign_with_k sHashHex (Some pv) (Some gv) (Some xv) qv k w =
  (match BigInteger.modInverse k qv with
   | Some kinv =>
       let r := BigInteger.modPow gv k pv mod qv in
       let s := (kinv * (DSA.sign_z qv sHashHex + xv * r)) mod qv in
       Ok (ASN1Util.jsonToASN1HEX (Jseq [Jint_bigint r; Jint_bigint s]))
   | None => NoReturn
   end, w).
Proof.
  unfold DSA.sign_with_k, DSA.bind, DSA.deref, DSA.ret, DSA.modInverse.
  destruct (BigInteger.modInverse k qv); reflexivity.
Qed.

Lemma getRandom_ok biMin biMax w k w' :
  DSA.getRandomBigIntegerMinToMax biMin biMax w = (Ok k, w') ->
  biMin <= k <= biMax /\ DSA.this w' = DSA.this w.
Proof.
  rewrite getRandom_run. intros H.
  pose proof (f_equal snd H) as Hw. cbv [snd] in Hw. subst w'.
  pose proof (f_equal fst H) as Hk. cbv [fst] in Hk.
  destruct (Z.ltb_spec biMax biMin) as [| Hle]; [discriminate |].
  apply Ok_inj in Hk. subst k. split; [| reflexivity].
  pose proof (Z.mod_pos_bound
                (entropy (DSA.random w) (List.length (requests (DSA.random w))))
                (biMax - biMin + 1)).
  lia.
Qed.

(** ** The digest's first digits in the results of both methods *)

(** C10: on a complete key with [p > 1] whose [q] has a bit length [N]
    that is not a multiple of four, and for a hexadecimal digest, the
    results of both methods are computed from the [z] read from the first
    [floor(N/4)] hexadecimal digits of the digest, the fractional count
    given to [substr] being truncated.  These digits are
    [4 * floor(N/4) < N] bits, and for a digest of at least that many
    digits [z] is the value of its leftmost [4 * floor(N/4)] bits.
    [signWithMessageHash] returns the container of [r] and
    [s = k^-1 (z + x r) mod q] for the [k] it draws, and
    [verifyWithMessageHash], on a pair that passes the range check,
    returns whether [((g^u1 y^u2) mod p) mod q = r] with
    [u1 = z w mod q]. *)
Theorem z_uses_floor_quarter_digits
    (sHashHex hSigVal : string) (w : DSA.World) (pv qv gv yv xv : Z) :
  DSA.p (DSA.this w) = Some pv -> DSA.q (DSA.this w) = Some qv ->
  DSA.g (DSA.this w) = Some gv -> DSA.y (DSA.this w) = Some yv ->
  DSA.x (DSA.this w) = Some xv ->
  1 < pv ->
  Spec.is_hex sHashHex = true ->
  BigInteger.bitLength qv mod 4 <> 0 ->
  let N := BigInteger.bitLength qv in
  let z := BigInteger.ofHex (String.substring 0 (Z.to_nat (N / 4)) sHashHex) in
  4 * (N / 4) < N /\
  (N / 4 <= Z.of_nat (String.length sHashHex) ->
   z = Spec.leftmost_bits (4 * (N / 4)) sHashHex) /\
  (forall k w' kinv,
     DSA.getRandomBigIntegerMinToMax 2 (qv - 1) w = (Ok k, w') ->
     BigInteger.modInverse k qv = Some kinv ->
     let r := BigInteger.modPow gv k pv mod qv in
     let s := (kinv * (z + xv * r)) mod qv in
     DSA.signWithMessageHash sHashHex w =
       (Ok (ASN1Util.jsonToASN1HEX (Jseq [Jint_bigint r; Jint_bigint s])), w')) /\
  (forall r s winv,
     fst (DSA.parseASN1Signature hSigVal w) = Ok (r, s) ->
     0 <= r <= qv -> 0 <= s <= qv ->
     BigInteger.modInverse s qv = Some winv ->
     let u1 := (z * winv) mod qv in
     let u2 := (r * winv) mod qv in
     fst (DSA.verifyWithMessageHash sHashHex hSigVal w) =
       Ok (((BigInteger.modPow gv u1 pv * BigInteger.modPow yv u2 pv) mod pv)
             mod qv =? r)).
Proof.
  intros Hp Hq Hg Hy Hx Hp1 Hhex Hmod N z.
  assert (Hz : DSA.sign_z qv sHashHex = z) by apply sign_z_digits.
  pose proof (bitLength_nonneg qv) as HN. fold N in HN, Hmod.
  assert (Hlt : 4 * (N / 4) < N)
    by (pose proof (Z.div_mod N 4); pose proof (Z.mod_pos_bound N 4); lia).
  split; [exact Hlt |]. split; [| split].
  - intros Hlen. unfold z, Spec.leftmost_bits, Spec.outlen.
    rewrite ofHex_prefix by (trivial; lia). f_equal.
    rewrite Z2Nat.id by (apply Z.div_pos; lia). lia.
  - intros k w' kinv Hrand Hinv r s.
    rewrite (sign_unfold _ _ _ Hq). unfold DSA.bind. rewrite Hrand.
    rewrite Hp, Hg, Hx, sign_with_k_run, Hinv. cbv beta iota zeta.
    rewrite Hz. reflexivity.
  - intros r s winv Hparse Hr Hs Hinv u1 u2.
    rewrite (verify_unfold _ _ _ r s Hparse).
    rewrite Hp, Hq, Hg, Hy, verify_rs_run. cbv [fst].
    destruct (Z.ltb_spec r 0); [lia |]. destruct (Z.ltb_spec qv r); [lia |].
    destruct (Z.ltb_spec s 0); [lia |]. destruct (Z.ltb_spec qv s); [lia |].
    cbv beta iota zeta delta [orb]. rewrite Hinv. cbv beta iota zeta.
    change (DSA.verify_z qv sHashHex) with (DSA.sign_z qv sHashHex).
    rewrite Hz. reflexivity.
Qed.

Lemma z_uses_floor_quarter_digits_witness :
  BigInteger.bitLength 23 mod 4 <> 0 /\
  BigInteger.ofHex
    (String.substring 0 (Z.to_nat (BigInteger.bitLength 23 / 4))
       Examples.sha1_abc) = 10 /\
  fst (DSA.signWithMessageHash Examples.sha1_abc
         (Examples.world Examples.key47 0)) = Ok "300602010402010f" /\
  fst (DSA.verifyWithMessageHash Examples.sha1_abc "300602010402010f"
         (Examples.world Examples.key47 0)) = Ok true.
Proof.
  assert (Hmod : BigInteger.bitLength 23 mod 4 <> 0) by (vm_compute; discriminate).
  destruct (z_uses_floor_quarter_digits Examples.sha1_abc "300602010402010f"
              (Examples.world Examples.key47 0) 47 23 2 32 5
              eq_refl eq_refl eq_refl eq_refl eq_refl eq_refl eq_refl Hmod)
    as (_ & _ & Hsign & Hverify).
  split; [exact Hmod |]. split; [reflexivity |]. split.
  - rewrite (Hsign 2 _ 12 eq_refl eq_refl). reflexivity.
  - rewrite (Hverify 4 15 20); [reflexivity | reflexivity | lia | lia | reflexivity].
Defined.

(** ** Signing and then verifying with a valid key *)

(** X1: signing and then verifying with the same complete, valid key
    answers [true] whenever the [s] that the drawn [k] leads to is not
    zero. *)
Lemma sign_then_verify_nonzero_s sHashHex w pv qv gv yv xv k w' :
  DSA.p (DSA.this w) = Some pv ->
  DSA.q (DSA.this w) = Some qv ->
  DSA.g (DSA.this w) = Some gv ->
  DSA.y (DSA.this w) = Some yv ->
  DSA.x (DSA.this w) = Some xv ->
  Spec.valid_domain pv qv gv -> Spec.key_pair pv qv gv yv xv ->
  Z.log2 qv < 2 ^ 100 ->
  DSA.getRandomBigIntegerMinToMax 2 (qv - 1) w = (Ok k, w') ->
  (forall kinv,
      BigInteger.modInverse k qv = Some kinv ->
      (kinv * (DSA.sign_z qv sHashHex + xv * (BigInteger.modPow gv k pv mod qv)))
        mod qv <> 0) ->
  Examples.sign_then_verify sHashHex w = Ok true.
Proof.
  intros Hp Hq Hg Hy Hx (Hpp & Hqp & _ & Hgv & Hord) (Hxv & Hyv) Hlog Hdraw Hs.
  pose proof (Z.prime_ge_2 _ Hpp) as Hp2. pose proof (Z.prime_ge_2 _ Hqp) as Hq2.
  destruct (getRandom_ok _ _ _ _ _ Hdraw) as [Hk Hthis].
  assert (Hq1 : 1 < qv) by lia.
  assert (Hk0 : 0 < k < qv) by lia.
  destruct (modInverse_spec k qv Hq1 (prime_coprime _ _ Hqp Hk0))
    as (kinv & Hkinv & Hkk & _).
  specialize (Hs kinv Hkinv).
  rewrite modPow_spec in Hord, Hyv, Hs by lia.
  unfold Examples.sign_then_verify.
  rewrite (sign_unfold _ _ _ Hq). unfold DSA.bind. rewrite Hdraw, Hp, Hg, Hx.
  cbv beta iota. rewrite sign_with_k_run, Hkinv. cbv beta iota zeta.
  rewrite (modPow_spec gv k pv) by lia.
  remember ((gv ^ k mod pv) mod qv) as r eqn:Er.
  remember ((kinv * (DSA.sign_z qv sHashHex + xv * r)) mod qv) as s eqn:Es.
  assert (Hr : 0 <= r < qv) by (subst r; apply Z.mod_pos_bound; lia).
  assert (Hsr : 0 <= s < qv) by (subst s; apply Z.mod_pos_bound; lia).
  assert (Hparse : forall w0,
             DSA.parseASN1Signature
               (ASN1Util.jsonToASN1HEX (Jseq [Jint_bigint r; Jint_bigint s])) w0 =
             (Ok (r, s), w0)).
  { intros w0.
    assert (Z.log2 r <= Z.log2 qv) by (apply Z.log2_le_mono; lia).
    assert (Z.log2 s <= Z.log2 qv) by (apply Z.log2_le_mono; lia).
    apply parse_encode; lia. }
  rewrite (verify_unfold _ _ _ r s) by (now rewrite Hparse).
  rewrite Hthis, Hp, Hq, Hg, Hy, verify_rs_run. cbv [fst].
  destruct (Z.ltb_spec r 0); [lia |]. destruct (Z.ltb_spec qv r); [lia |].
  destruct (Z.ltb_spec s 0); [lia |]. destruct (Z.ltb_spec qv s); [lia |].
  cbv beta iota zeta delta [orb].
  assert (Hs0 : 0 < s < qv) by lia.
  destruct (modInverse_spec s qv Hq1 (prime_coprime _ _ Hqp Hs0))
    as (winv & -> & Hsw & _).
  cbv beta iota zeta. f_equal. apply Z.eqb_eq.
  change (DSA.verify_z qv sHashHex) with (DSA.sign_z qv sHashHex).
  rewrite !modPow_spec by (try apply Z.mod_pos_bound; lia).
  subst yv. clear Hparse Hy.
  subst s. subst r.
  apply (dsa_core pv qv gv xv k (DSA.sign_z qv sHashHex) kinv); trivial; lia.
Qed.

(** ** The concrete keys are valid *)

Lemma key23_valid : Spec.valid_domain 23 11 2 /\ Spec.key_pair 23 11 2 8 3.
Proof.
  repeat split; try lia; try (apply prime_check_sound; reflexivity).
  exists 2. reflexivity.
Qed.

Lemma key67_valid : Spec.valid_domain 67 11 64 /\ Spec.key_pair 67 11 64 40 3.
Proof.
  repeat split; try lia; try (apply prime_check_sound; reflexivity).
  exists 6. reflexivity.
Qed.

Lemma key47_valid : Spec.valid_domain 47 23 2 /\ Spec.key_pair 47 23 2 32 5.
Proof.
  repeat split; try lia; try (apply prime_check_sound; reflexivity).
  exists 2. reflexivity.
Qed.

(** The keys are what [setPrivate] stores in a fresh object. *)
Lemma key23_setPrivate rs :
  DSA.setPrivate (Some 23) (Some 11) (Some 2) (Some 8) (Some 3)
    (DSA.mkWorld DSA.new rs) =
  (Ok tt, DSA.mkWorld Examples.key23 rs).
Proof. reflexivity. Qed.

Lemma setPublic_clears_x p' q' g' y' w :
  DSA.x (DSA.this (snd (DSA.setPublic p' q' g' y' w))) = None /\
  DSA.isPublic (DSA.this (snd (DSA.setPublic p' q' g' y' w))) = Some true /\
  DSA.random (snd (DSA.setPublic p' q' g' y' w)) = DSA.random w.
Proof. repeat split. Qed.

(** With the key of [p = 23] every draw but [k = 2] gives a signature that
    verifies; the draw [k = 3] is an instance of the general lemma. *)
Lemma sign_then_verify_nonzero_s_witness :
  Examples.sign_then_verify Examples.sha1_abc (Examples.world Examples.key23 1)
    = Ok true.
Proof.
  pose proof (proj1 key23_valid) as Hd. pose proof (proj2 key23_valid) as Hk.
  apply (sign_then_verify_nonzero_s Examples.sha1_abc
           (Examples.world Examples.key23 1) 23 11 2 8 3 3
           (DSA.mkWorld Examples.key23
              (mkRandomSource (entropy (Examples.source 1)) [(2, 10)])));
    try reflexivity; try assumption.
  intros kinv Hkinv. vm_compute in Hkinv. injection Hkinv as <-.
  vm_compute. discriminate.
Defined.

(** The loose range check also lets [s = q] through: with the first key
    the pair [(1, 11)] is accepted.  (Here [modInverse] is asked for the
    inverse of [q] modulo [q], which does not exist, and returns zero.) *)
Lemma verify_accepts_s_equal_q :
  fst (DSA.parseASN1Signature "300602010102010b" (Examples.world Examples.key23 0))
    = Ok (1, 11) /\
  fst (DSA.verifyWithMessageHash Examples.sha1_abc "300602010102010b"
         (Examples.world Examples.key23 0)) = Ok true.
Proof. split; vm_compute; reflexivity. Qed.

(** ** Kinds of malformed containers *)

Lemma bytes_of_hex_app h1 h2 b1 :
  ASN1HEX.bytes_of_hex h1 = Some b1 ->
  ASN1HEX.bytes_of_hex (h1 ++ h2) =
  match ASN1HEX.bytes_of_hex h2 with
  | Some b2 => Some (b1 ++ b2)
  | None => None
  end.
Proof.
  revert b1.
  assert (H : forall n h, (String.length h <= n)%nat ->
                forall b1, ASN1HEX.bytes_of_hex h = Some b1 ->
                ASN1HEX.bytes_of_hex (h ++ h2) =
                match ASN1HEX.bytes_of_hex h2 with
                | Some b2 => Some (b1 ++ b2)
                | None => None
                end).
  { induction n as [| n IH]; intros [| c1 [| c2 h']] Hlen b1 Hb1;
      cbn [ASN1HEX.bytes_of_hex String.length String.append] in *;
      try discriminate; try lia;
      try (injection Hb1 as <-; now destruct (ASN1HEX.bytes_of_hex h2)).
    destruct (BigInteger.intAt c1) as [a |]; [| discriminate].
    destruct (BigInteger.intAt c2) as [b |]; [| discriminate].
    destruct (ASN1HEX.bytes_of_hex h') as [bs' |] eqn:Hh'; [| discriminate].
    injection Hb1 as <-. rewrite (IH h' ltac:(lia) bs' Hh').
    now destruct (ASN1HEX.bytes_of_hex h2). }
  intros b1. apply (H (String.length h1)). lia.
Qed.

Lemma bytes_of_hex_nonempty h bs :
  h <> EmptyString -> ASN1HEX.bytes_of_hex h = Some bs -> bs <> [].
Proof.
  intros Hne Hbs. destruct h as [| c1 [| c2 h']]; [congruence | discriminate |].
  cbn [ASN1HEX.bytes_of_hex] in Hbs.
  destruct (BigInteger.intAt c1), (BigInteger.intAt c2),
    (ASN1HEX.bytes_of_hex h'); try discriminate.
  injection Hbs as <-. discriminate.
Qed.

(** Extra trailing bytes: a well-formed container followed by anything is
    not a well-formed container. *)
Lemma trailing_bytes_malformed h extra :
  Spec.two_integer_sequence h -> extra <> EmptyString ->
  ~ Spec.two_integer_sequence (h ++ extra).
Proof.
  intros (bytes & c1 & c2 & f1 & f2 & Hbytes & _ & _ & Hseq) Hextra
    (bytes' & c1' & c2' & f1' & f2' & Hbytes' & _ & _ & Hseq').
  rewrite (bytes_of_hex_app _ extra _ Hbytes) in Hbytes'.
  destruct (ASN1HEX.bytes_of_hex extra) as [eb |] eqn:Heb; [| discriminate].
  injection Hbytes' as <-.
  pose proof (parse_tlv_complete _ _ _ eb Hseq) as H1.
  pose proof (parse_tlv_complete _ _ _ [] Hseq') as H2.
  rewrite app_nil_r, H1 in H2. injection H2 as _ Heb0.
  exact (bytes_of_hex_nonempty _ _ Hextra Heb Heb0).
Qed.

(** Truncation: what is left of a well-formed container after cutting
    off its end is not a well-formed container. *)
Lemma truncated_malformed h cut :
  Spec.two_integer_sequence (h ++ cut) -> cut <> EmptyString ->
  ~ Spec.two_integer_sequence h.
Proof.
  intros Hwhole Hcut Hpart.
  exact (trailing_bytes_malformed h cut Hpart Hcut Hwhole).
Qed.

(** The signer's container is well formed. *)
Lemma encoded_signature_well_formed r s :
  Z.log2 r < 2 ^ 100 -> Z.log2 s < 2 ^ 100 ->
  Spec.two_integer_sequence
    (ASN1Util.jsonToASN1HEX (Jseq [Jint_bigint r; Jint_bigint s])).
Proof.
  intros Hr Hs.
  destruct (two_fields_sound _ _ _ _ _ (two_fields_encode r s Hr Hs))
    as (bytes & f1 & f2 & Hbytes & Hf1 & Hf2 & Hseq & _).
  now exists bytes, (ASN1HEX.unsigned_content r), (ASN1HEX.unsigned_content s), f1, f2.
Qed.


(** * Further properties of the methods *)

(** ** Signing with an incomplete key *)

Lemma drawn_k_nonzero raw qv : 2 <= qv - 1 -> 2 + raw mod (qv - 1 - 2 + 1) <> 0.
Proof.
  intros Hq. pose proof (Z.mod_pos_bound raw (qv - 1 - 2 + 1) ltac:(lia)). lia.
Qed.

Lemma sign_with_k_incomplete sHashHex p g x qv k w :
  k <> 0 ->
  p = None \/ g = None \/ x = None ->
  DSA.sign_with_k sHashHex p g x qv k w = (Throw TypeError, w).
Proof.
  intros Hk H.
  unfold DSA.sign_with_k, DSA.bind, DSA.deref, DSA.ret, DSA.throw, DSA.modInverse.
  destruct g as [gv |]; [| reflexivity].
  destruct p as [pv |]; [| reflexivity].
  destruct (modInverse_returns k qv (or_introl Hk)) as [kinv ->].
  destruct x as [xv |]; [| reflexivity].
  destruct H as [H | [H | H]]; discriminate.
Qed.

Lemma sign_without_q sHashHex w :
  DSA.q (DSA.this w) = None ->
  DSA.signWithMessageHash sHashHex w = (Throw TypeError, w).
Proof.
  intros Hq. unfold DSA.signWithMessageHash, DSA.bind at 1 2 3 4 5 6, DSA.read.
  rewrite Hq. reflexivity.
Qed.


(** X3: on a key object whose [q] is [null] (a fresh object, say)
    [signWithMessageHash] throws a [TypeError] at [q.subtract], before the
    random source is asked for anything: the world is left untouched. *)
Theorem sign_without_q_draws_nothing (sHashHex : string) (w : DSA.World) :
  DSA.q (DSA.this w) = None ->
  DSA.signWithMessageHash sHashHex w = (Throw TypeError, w) /\
  requests (DSA.random (snd (DSA.signWithMessageHash sHashHex w))) =
    requests (DSA.random w).
Proof.
  intros Hq. rewrite (sign_without_q _ _ Hq). split; reflexivity.
Qed.

Lemma sign_without_q_draws_nothing_witness :
  DSA.signWithMessageHash Examples.sha1_abc (Examples.world DSA.new 0) =
    (Throw TypeError, Examples.world DSA.new 0) /\
  requests (DSA.random (snd (DSA.signWithMessageHash Examples.sha1_abc
                               (Examples.world DSA.new 0)))) =
    requests (DSA.random (Examples.world DSA.new 0)).
Proof.
  apply (sign_without_q_draws_nothing Examples.sha1_abc (Examples.world DSA.new 0)).
  reflexivity.
Defined.

(** X4: on a public-only key ([p], [q], [g] set, [x] [null]) with [q > 2]
    [signWithMessageHash] throws a [TypeError] at [x.multiply], and by then
    it has drawn [k]: one request, for [2, q-1], has been made of the random
    source.  The key object is unchanged. *)
Theorem sign_with_public_key_draws_then_throws
    (sHashHex : string) (w : DSA.World) (pv qv gv : Z) :
  DSA.p (DSA.this w) = Some pv ->
  DSA.q (DSA.this w) = Some qv ->
  DSA.g (DSA.this w) = Some gv ->
  DSA.x (DSA.this w) = None ->
  2 < qv ->
  DSA.signWithMessageHash sHashHex w =
  (Throw TypeError,
   DSA.mkWorld (DSA.this w)
     (mkRandomSource (entropy (DSA.random w))
        (requests (DSA.random w) ++ [(2, qv - 1)]))).
Proof.
  intros Hp Hq Hg Hx Hq2.
  rewrite (sign_unfold _ _ _ Hq). unfold DSA.bind. rewrite getRandom_run.
  destruct (Z.ltb_spec (qv - 1) 2); [lia |].
  rewrite sign_with_k_incomplete by (auto using drawn_k_nonzero). reflexivity.
Qed.

Lemma sign_with_public_key_draws_then_throws_witness :
  DSA.signWithMessageHash Examples.sha1_abc
    (snd (DSA.setPublic (Some 23) (Some 11) (Some 2) (Some 8)
            (Examples.world DSA.new 0))) =
  (Throw TypeError,
   DSA.mkWorld
     (DSA.this (snd (DSA.setPublic (Some 23) (Some 11) (Some 2) (Some 8)
                       (Examples.world DSA.new 0))))
     (mkRandomSource (entropy (Examples.source 0)) ([] ++ [(2, 11 - 1)]))).
Proof.
  apply (sign_with_public_key_draws_then_throws Examples.sha1_abc
           (snd (DSA.setPublic (Some 23) (Some 11) (Some 2) (Some 8)
                   (Examples.world DSA.new 0))) 23 11 2);
    try reflexivity; lia.
Defined.

(** X5: when any of [p], [q], [g], [x] is [null], [signWithMessageHash]
    never returns a signature. *)
Theorem sign_incomplete_key_never_signs (sHashHex : string) (w : DSA.World) :
  DSA.p (DSA.this w) = None \/ DSA.q (DSA.this w) = None \/
  DSA.g (DSA.this w) = None \/ DSA.x (DSA.this w) = None ->
  forall hSigVal, fst (DSA.signWithMessageHash sHashHex w) <> Ok hSigVal.
Proof.
  intros H hSigVal.
  destruct (DSA.q (DSA.this w)) as [qv |] eqn:Hq.
  - rewrite (sign_unfold _ _ _ Hq). unfold DSA.bind.
    rewrite getRandom_run.
    destruct (Z.ltb_spec (qv - 1) 2); [discriminate |].
    rewrite sign_with_k_incomplete; [discriminate | now apply drawn_k_nonzero |].
    destruct H as [H | [H | [H | H]]]; auto. discriminate.
  - rewrite (sign_without_q _ _ Hq). discriminate.
Qed.

Lemma sign_incomplete_key_never_signs_witness :
  fst (DSA.signWithMessageHash Examples.sha1_abc
         (Examples.world
            (DSA.mkObject None (Some 11) (Some 2) (Some 8) (Some 3) "DSA"
               (Some true) None) 0)) <> Ok "3006020104020100".
Proof.
  apply (sign_incomplete_key_never_signs Examples.sha1_abc
           (Examples.world
              (DSA.mkObject None (Some 11) (Some 2) (Some 8) (Some 3) "DSA"
                 (Some true) None) 0)).
  left. reflexivity.
Defined.

(** X6: [setPublic] stores [null] in [x] and leaves [isPrivate] as it was,
    so a key object that was private keeps [isPrivate = true] after
    [setPublic], becomes [isPublic = true] as well, and can no longer sign:
    whatever the four parameters, [signWithMessageHash] returns no
    signature. *)
Theorem setPublic_after_setPrivate_cannot_sign
    (p1 q1 g1 y1 x1 p2 q2 g2 y2 : option BigInteger.t)
    (sHashHex : string) (w : DSA.World) :
  let w1 := snd (DSA.setPrivate p1 q1 g1 y1 x1 w) in
  let w2 := snd (DSA.setPublic p2 q2 g2 y2 w1) in
  DSA.isPrivate (DSA.this w2) = Some true /\
  DSA.isPublic (DSA.this w2) = Some true /\
  DSA.x (DSA.this w2) = None /\
  DSA.type (DSA.this w2) = DSA.type (DSA.this w) /\
  DSA.random w2 = DSA.random w /\
  forall hSigVal, fst (DSA.signWithMessageHash sHashHex w2) <> Ok hSigVal.
Proof.
  cbv zeta. repeat split. intros hSigVal.
  set (w2 := snd (DSA.setPublic p2 q2 g2 y2
                    (snd (DSA.setPrivate p1 q1 g1 y1 x1 w)))).
  assert (Hx : DSA.x (DSA.this w2) = None) by reflexivity.
  destruct (DSA.q (DSA.this w2)) as [qv |] eqn:Hq.
  - rewrite (sign_unfold _ _ _ Hq). unfold DSA.bind. rewrite getRandom_run.
    destruct (Z.ltb_spec (qv - 1) 2); [discriminate |].
    rewrite sign_with_k_incomplete by (auto using drawn_k_nonzero). discriminate.
  - rewrite (sign_without_q _ _ Hq). discriminate.
Qed.

(** ** Verifying: errors and their order *)

Lemma getVbyList_returns h currentIndex nthList checkingTag :
  ASN1HEX.getVbyList h currentIndex nthList checkingTag <> NoReturn.
Proof.
  unfold ASN1HEX.getVbyList.
  destruct (ASN1HEX.getIdxbyList _ _ _) as [idx |]; [| discriminate].
  destruct (negb _); discriminate.
Qed.

Lemma parse_cases hSigVal w :
  DSA.parseASN1Signature hSigVal w =
    (Throw (Thrown "malformed ASN.1 DSA signature"), w) \/
  exists r s, DSA.parseASN1Signature hSigVal w = (Ok (r, s), w).
Proof.
  unfold DSA.parseASN1Signature, DSA.try_catch, DSA.bind, DSA.call, DSA.ret,
    DSA.throw.
  pose proof (getVbyList_returns hSigVal 0 [0] "02") as H0.
  pose proof (getVbyList_returns hSigVal 0 [1] "02") as H1.
  destruct (ASN1HEX.getVbyList hSigVal 0 [0] "02") as [hr | e0 |];
    [| now left | contradiction].
  destruct (ASN1HEX.getVbyList hSigVal 0 [1] "02") as [hs | e1 |];
    [| now left | contradiction].
  right. eauto.
Qed.

Lemma verify_rs_incomplete sHashHex p q g y r s w :
  p = None \/ q = None \/ g = None \/ y = None ->
  forall b, fst (DSA.verify_rs sHashHex p q g y r s w) <> Ok b.
Proof.
  intros H b.
  unfold DSA.verify_rs, DSA.bind, DSA.deref, DSA.ret, DSA.throw, DSA.modInverse.
  destruct q as [qv |]; [| discriminate].
  destruct (_ || _); [discriminate |].
  destruct (_ || _); [discriminate |].
  destruct (BigInteger.modInverse s qv) as [winv |]; [| discriminate].
  destruct g as [gv |]; [| discriminate].
  destruct p as [pv |]; [| discriminate].
  destruct y as [yv |]; [| discriminate].
  destruct H as [H | [H | [H | H]]]; discriminate.
Qed.

(** X7: decoding comes first.  When [parseASN1Signature] returns no pair
    for [hSigVal] (a second field that does not carry the tag 02, say),
    [verifyWithMessageHash] throws "malformed ASN.1 DSA signature" for every
    digest and every key object, an empty one included, and leaves the world
    as it was. *)
Theorem verify_throws_malformed_before_key
    (sHashHex hSigVal : string) (w : DSA.World) :
  (forall rs, fst (DSA.parseASN1Signature hSigVal w) <> Ok rs) ->
  DSA.verifyWithMessageHash sHashHex hSigVal w =
  (Throw (Thrown "malformed ASN.1 DSA signature"), w).
Proof.
  intros Hno. unfold DSA.verifyWithMessageHash, DSA.bind, DSA.read.
  destruct (parse_cases hSigVal w) as [Hbad | (r & s & Hok)].
  - rewrite Hbad. reflexivity.
  - exfalso. apply (Hno (r, s)). rewrite Hok. reflexivity.
Qed.

Lemma verify_throws_malformed_before_key_witness :
  DSA.verifyWithMessageHash Examples.sha1_abc "3006020104030100"
    (Examples.world DSA.new 0) =
  (Throw (Thrown "malformed ASN.1 DSA signature"), Examples.world DSA.new 0).
Proof.
  apply (verify_throws_malformed_before_key Examples.sha1_abc "3006020104030100"
           (Examples.world DSA.new 0)).
  intros rs. vm_compute. discriminate.
Defined.

(** X8: when any of [p], [q], [g], [y] is [null],
    [verifyWithMessageHash] gives no verdict: it never returns [true] or
    [false], whatever the digest and the signature.  (The call throws, or,
    when it gets as far as [s.modInverse(q)] with [s = 0] and [q] odd, does
    not return.) *)
Theorem verify_incomplete_key_no_verdict
    (sHashHex hSigVal : string) (w : DSA.World) :
  DSA.p (DSA.this w) = None \/ DSA.q (DSA.this w) = None \/
  DSA.g (DSA.this w) = None \/ DSA.y (DSA.this w) = None ->
  forall b, fst (DSA.verifyWithMessageHash sHashHex hSigVal w) <> Ok b.
Proof.
  intros H b.
  destruct (parse_cases hSigVal w) as [Hbad | (r & s & Hok)].
  - unfold DSA.verifyWithMessageHash, DSA.bind, DSA.read. rewrite Hbad.
    discriminate.
  - rewrite (verify_unfold _ _ _ r s) by (now rewrite Hok).
    now apply verify_rs_incomplete.
Qed.

Lemma verify_incomplete_key_no_verdict_witness :
  fst (DSA.verifyWithMessageHash Examples.sha1_abc "3006020108020104"
         (Examples.world
            (DSA.mkObject (Some 23) (Some 11) (Some 2) None None "DSA"
               None None) 0)) <> Ok true.
Proof.
  apply (verify_incomplete_key_no_verdict Examples.sha1_abc "3006020108020104"
           (Examples.world
              (DSA.mkObject (Some 23) (Some 11) (Some 2) None None "DSA"
                 None None) 0)).
  right. right. right. reflexivity.
Defined.

(** X9: the range check as the code makes it.  For a complete public key
    and a signature that decodes to [(r, s)], [verifyWithMessageHash]
    throws "invalid DSA signature" exactly when [r < 0], [r > q], [s < 0] or
    [s > q].  In every other case, the bounds [r = 0], [r = q] and [s = q]
    included, it goes on to [s.modInverse(q)]: with [p] and [q] positive it
    returns a verdict unless [s = 0] and [q] is odd, and then it does not
    return. *)
Theorem verify_range_check_exact sHashHex hSigVal w pv qv gv yv r s :
  DSA.p (DSA.this w) = Some pv ->
  DSA.q (DSA.this w) = Some qv ->
  DSA.g (DSA.this w) = Some gv ->
  DSA.y (DSA.this w) = Some yv ->
  fst (DSA.parseASN1Signature hSigVal w) = Ok (r, s) ->
  (fst (DSA.verifyWithMessageHash sHashHex hSigVal w)
     = Throw (Thrown "invalid DSA signature") <->
   r < 0 \/ qv < r \/ s < 0 \/ qv < s) /\
  (0 < pv -> 0 < qv -> 0 <= r <= qv -> 0 <= s <= qv ->
   s <> 0 \/ Z.odd qv = false ->
   exists b, fst (DSA.verifyWithMessageHash sHashHex hSigVal w) = Ok b) /\
  (0 <= r <= qv -> s = 0 -> Z.odd qv = true ->
   fst (DSA.verifyWithMessageHash sHashHex hSigVal w) = NoReturn).
Proof.
  intros Hp Hq Hg Hy Hparse.
  rewrite (verify_unfold _ _ _ _ _ Hparse), Hp, Hq, Hg, Hy, verify_rs_run.
  cbv [fst].
  destruct (Z.ltb_spec r 0), (Z.ltb_spec qv r), (Z.ltb_spec s 0),
    (Z.ltb_spec qv s); cbv beta iota zeta delta [orb];
    try (split; [split; [intros _; lia | reflexivity]
                | split; [intros; lia | intros; subst; lia]]).
  split; [| split].
  - split; [| intros; lia].
    destruct (BigInteger.modInverse s qv); discriminate.
  - intros _ _ _ _ Hinv. destruct (modInverse_returns s qv Hinv) as [winv ->].
    cbv beta iota zeta. eauto.
  - intros _ -> Hodd. now rewrite (modInverse_zero_odd qv Hodd).
Qed.

Lemma verify_range_check_exact_witness :
  (fst (DSA.verifyWithMessageHash Examples.sha1_abc "300602010402010b"
          (Examples.world Examples.key23 0))
     = Throw (Thrown "invalid DSA signature") <->
   4 < 0 \/ 11 < 4 \/ 11 < 0 \/ 11 < 11) /\
  (0 < 23 -> 0 < 11 -> 0 <= 4 <= 11 -> 0 <= 11 <= 11 ->
   11 <> 0 \/ Z.odd 11 = false ->
   exists b,
     fst (DSA.verifyWithMessageHash Examples.sha1_abc "300602010402010b"
            (Examples.world Examples.key23 0)) = Ok b) /\
  (0 <= 4 <= 11 -> 11 = 0 -> Z.odd 11 = true ->
   fst (DSA.verifyWithMessageHash Examples.sha1_abc "300602010402010b"
          (Examples.world Examples.key23 0)) = NoReturn).
Proof.
  apply (verify_range_check_exact Examples.sha1_abc "300602010402010b"
           (Examples.world Examples.key23 0) 23 11 2 8 4 11);
    reflexivity.
Defined.

(** ** What the methods read *)

Lemma parse_fst_world hSigVal w1 w2 :
  fst (DSA.parseASN1Signature hSigVal w1) = fst (DSA.parseASN1Signature hSigVal w2).
Proof.
  unfold DSA.parseASN1Signature, DSA.try_catch, DSA.bind, DSA.call, DSA.ret,
    DSA.throw.
  destruct (ASN1HEX.getVbyList hSigVal 0 [0] "02") as [hr | e0 |];
    [| reflexivity | reflexivity].
  destruct (ASN1HEX.getVbyList hSigVal 0 [1] "02") as [hs | e1 |]; reflexivity.
Qed.

Lemma verify_rs_fst_world sHashHex p q g y r s w1 w2 :
  fst (DSA.verify_rs sHashHex p q g y r s w1) =
  fst (DSA.verify_rs sHashHex p q g y r s w2).
Proof.
  unfold DSA.verify_rs, DSA.bind, DSA.deref, DSA.ret, DSA.throw, DSA.modInverse.
  destruct q as [qv |]; [| reflexivity].
  destruct (_ || _); [reflexivity |].
  destruct (_ || _); [reflexivity |].
  destruct (BigInteger.modInverse s qv) as [winv |]; [| reflexivity].
  destruct g as [gv |]; [| reflexivity].
  destruct p as [pv |]; [| reflexivity].
  destruct y as [yv |]; reflexivity.
Qed.

Lemma sign_with_k_fst_world sHashHex p g x qv k w1 w2 :
  fst (DSA.sign_with_k sHashHex p g x qv k w1) =
  fst (DSA.sign_with_k sHashHex p g x qv k w2).
Proof.
  unfold DSA.sign_with_k, DSA.bind, DSA.deref, DSA.ret, DSA.throw, DSA.modInverse.
  destruct g as [gv |]; [| reflexivity].
  destruct p as [pv |]; [| reflexivity].
  destruct (BigInteger.modInverse k qv) as [kinv |]; [| reflexivity].
  destruct x as [xv |]; reflexivity.
Qed.

Lemma verify_fst_by_parse sHashHex hSigVal w :
  fst (DSA.verifyWithMessageHash sHashHex hSigVal w) =
  match fst (DSA.parseASN1Signature hSigVal w) with
  | Ok (r, s) =>
      fst (DSA.verify_rs sHashHex (DSA.p (DSA.this w)) (DSA.q (DSA.this w))
             (DSA.g (DSA.this w)) (DSA.y (DSA.this w)) r s w)
  | Throw e => Throw e
  | NoReturn => NoReturn
  end.
Proof.
  destruct (parse_cases hSigVal w) as [Hbad | (r & s & Hok)].
  - unfold DSA.verifyWithMessageHash, DSA.bind, DSA.read. rewrite Hbad.
    reflexivity.
  - rewrite (verify_unfold _ _ _ r s) by (now rewrite Hok).
    rewrite Hok. reflexivity.
Qed.

(** X11: the verdict of [verifyWithMessageHash] depends on the key object
    through [p], [q], [g] and [y] only: two worlds whose key objects agree
    on these four fields give the same result, whatever their [x], flags,
    [type] and random sources. *)
Theorem verify_reads_only_public_fields
    (sHashHex hSigVal : string) (w1 w2 : DSA.World) :
  DSA.p (DSA.this w1) = DSA.p (DSA.this w2) ->
  DSA.q (DSA.this w1) = DSA.q (DSA.this w2) ->
  DSA.g (DSA.this w1) = DSA.g (DSA.this w2) ->
  DSA.y (DSA.this w1) = DSA.y (DSA.this w2) ->
  fst (DSA.verifyWithMessageHash sHashHex hSigVal w1) =
  fst (DSA.verifyWithMessageHash sHashHex hSigVal w2).
Proof.
  intros Hp Hq Hg Hy. rewrite !verify_fst_by_parse.
  rewrite (parse_fst_world hSigVal w1 w2), Hp, Hq, Hg, Hy.
  destruct (fst (DSA.parseASN1Signature hSigVal w2)) as [[r s] | e |];
    [apply verify_rs_fst_world | reflexivity | reflexivity].
Qed.

Lemma verify_reads_only_public_fields_witness :
  fst (DSA.verifyWithMessageHash Examples.sha1_abc "3006020108020104"
         (Examples.world Examples.key23 0)) =
  fst (DSA.verifyWithMessageHash Examples.sha1_abc "3006020108020104"
         (snd (DSA.setPublic (Some 23) (Some 11) (Some 2) (Some 8)
                 (Examples.world DSA.new 5)))).
Proof.
  apply (verify_reads_only_public_fields Examples.sha1_abc "3006020108020104"
           (Examples.world Examples.key23 0)
           (snd (DSA.setPublic (Some 23) (Some 11) (Some 2) (Some 8)
                   (Examples.world DSA.new 5))));
    reflexivity.
Defined.

(** X12: [signWithMessageHash] reads [y] on line 111 and never uses it:
    two worlds with the same random source whose key objects agree on [p],
    [q], [g] and [x] give the same result, whatever their [y], flags and
    [type]. *)
Theorem sign_ignores_public_value (sHashHex : string) (w1 w2 : DSA.World) :
  DSA.p (DSA.this w1) = DSA.p (DSA.this w2) ->
  DSA.q (DSA.this w1) = DSA.q (DSA.this w2) ->
  DSA.g (DSA.this w1) = DSA.g (DSA.this w2) ->
  DSA.x (DSA.this w1) = DSA.x (DSA.this w2) ->
  DSA.random w1 = DSA.random w2 ->
  fst (DSA.signWithMessageHash sHashHex w1) =
  fst (DSA.signWithMessageHash sHashHex w2).
Proof.
  intros Hp Hq Hg Hx Hrand.
  destruct (DSA.q (DSA.this w2)) as [qv |] eqn:Hq2.
  - rewrite (sign_unfold _ _ _ Hq), (sign_unfold _ _ _ Hq2).
    unfold DSA.bind. rewrite !getRandom_run, Hp, Hg, Hx, Hrand.
    destruct (qv - 1 <? 2); [reflexivity |].
    apply sign_with_k_fst_world.
  - rewrite (sign_without_q _ _ Hq), (sign_without_q _ _ Hq2). reflexivity.
Qed.

Lemma sign_ignores_public_value_witness :
  fst (DSA.signWithMessageHash Examples.sha1_abc (Examples.world Examples.key23 1)) =
  fst (DSA.signWithMessageHash Examples.sha1_abc
         (Examples.world
            (DSA.mkObject (Some 23) (Some 11) (Some 2) None (Some 3) "dsa"
               None (Some true)) 1)).
Proof.
  apply (sign_ignores_public_value Examples.sha1_abc
           (Examples.world Examples.key23 1)
           (Examples.world
              (DSA.mkObject (Some 23) (Some 11) (Some 2) None (Some 3) "dsa"
                 None (Some true)) 1));
    reflexivity.
Defined.

(** ** The digest beyond its first digits *)

Lemma sign_with_k_by_z h1 h2 p g x qv k w :
  DSA.sign_z qv h1 = DSA.sign_z qv h2 ->
  DSA.sign_with_k h1 p g x qv k w = DSA.sign_with_k h2 p g x qv k w.
Proof. intros Hz. unfold DSA.sign_with_k. rewrite Hz. reflexivity. Qed.

Lemma verify_rs_by_z h1 h2 p qv g y r s w :
  DSA.verify_z qv h1 = DSA.verify_z qv h2 ->
  DSA.verify_rs h1 p (Some qv) g y r s w = DSA.verify_rs h2 p (Some qv) g y r s w.
Proof.
  intros Hz. unfold DSA.verify_rs, DSA.bind at 1 6, DSA.deref at 1 5, DSA.ret at 1 5.
  rewrite Hz. reflexivity.
Qed.

(** X10: only the first [floor(N/4)] hexadecimal digits of the digest
    count, [N] the bit length of [q].  Two digests that agree on those
    digits give the same signature (for the same world) and the same
    verdict on every signature; the digits after them are never looked
    at. *)
Theorem digest_counts_up_to_quarter_bitlength
    (h1 h2 : string) (w : DSA.World) (qv : Z) :
  DSA.q (DSA.this w) = Some qv ->
  String.substring 0 (Z.to_nat (BigInteger.bitLength qv / 4)) h1 =
  String.substring 0 (Z.to_nat (BigInteger.bitLength qv / 4)) h2 ->
  DSA.signWithMessageHash h1 w = DSA.signWithMessageHash h2 w /\
  forall hSigVal,
    DSA.verifyWithMessageHash h1 hSigVal w =
    DSA.verifyWithMessageHash h2 hSigVal w.
Proof.
  intros Hq Hpre.
  assert (Hz : DSA.sign_z qv h1 = DSA.sign_z qv h2)
    by (rewrite !sign_z_digits, Hpre; reflexivity).
  split.
  - rewrite !(sign_unfold _ _ _ Hq). unfold DSA.bind.
    destruct (DSA.getRandomBigIntegerMinToMax 2 (qv - 1) w) as [[k | e |] w'];
      [apply sign_with_k_by_z, Hz | reflexivity | reflexivity].
  - intros hSigVal. unfold DSA.verifyWithMessageHash, DSA.bind, DSA.read.
    rewrite Hq.
    destruct (DSA.parseASN1Signature hSigVal w) as [[[r s] | e |] w'];
      [apply verify_rs_by_z, Hz | reflexivity | reflexivity].
Qed.

Lemma digest_counts_up_to_quarter_bitlength_witness :
  DSA.signWithMessageHash Examples.sha1_abc (Examples.world Examples.key23 1) =
    DSA.signWithMessageHash "a0" (Examples.world Examples.key23 1) /\
  forall hSigVal,
    DSA.verifyWithMessageHash Examples.sha1_abc hSigVal
      (Examples.world Examples.key23 1) =
    DSA.verifyWithMessageHash "a0" hSigVal (Examples.world Examples.key23 1).
Proof.
  apply (digest_counts_up_to_quarter_bitlength Examples.sha1_abc "a0"
           (Examples.world Examples.key23 1) 11);
    reflexivity.
Defined.

Lemma sign_z_spec_multiple_of_4_witness :
  DSA.sign_z 11 Examples.sha1_abc = Spec.z_spec 11 Examples.sha1_abc.
Proof.
  apply (sign_z_spec_multiple_of_4 11 Examples.sha1_abc); reflexivity.
Defined.

(** ** A zero [r] and the public value *)

(** X13: for a signature with [r = 0], which the range check lets
    through, the verdict does not depend on the public value [y]: [u2] is
    zero, so [y] enters [v] as [y^0].  Two complete keys with the same [p],
    [q] and [g] give the same result on such a signature, whatever their
    [y]. *)
Theorem verify_zero_r_ignores_y
    sHashHex hSigVal (w1 w2 : DSA.World) pv qv gv y1 y2 s :
  DSA.p (DSA.this w1) = Some pv -> DSA.p (DSA.this w2) = Some pv ->
  DSA.q (DSA.this w1) = Some qv -> DSA.q (DSA.this w2) = Some qv ->
  DSA.g (DSA.this w1) = Some gv -> DSA.g (DSA.this w2) = Some gv ->
  DSA.y (DSA.this w1) = Some y1 -> DSA.y (DSA.this w2) = Some y2 ->
  fst (DSA.parseASN1Signature hSigVal w1) = Ok (0, s) ->
  fst (DSA.verifyWithMessageHash sHashHex hSigVal w1) =
  fst (DSA.verifyWithMessageHash sHashHex hSigVal w2).
Proof.
  intros Hp1 Hp2 Hq1 Hq2 Hg1 Hg2 Hy1 Hy2 Hparse.
  assert (Hparse2 : fst (DSA.parseASN1Signature hSigVal w2) = Ok (0, s))
    by (rewrite <- Hparse; apply parse_fst_world).
  rewrite (verify_unfold _ _ _ _ _ Hparse), (verify_unfold _ _ _ _ _ Hparse2).
  rewrite Hp1, Hp2, Hq1, Hq2, Hg1, Hg2, Hy1, Hy2, !verify_rs_run.
  cbv [fst].
  destruct ((0 <? 0) || (qv <? 0)); [reflexivity |].
  destruct ((s <? 0) || (qv <? s)); [reflexivity |].
  destruct (BigInteger.modInverse s qv) as [winv |]; [| reflexivity].
  cbv beta iota zeta. rewrite Z.mul_0_l, Zmod_0_l.
  reflexivity.
Qed.

Lemma verify_zero_r_ignores_y_witness :
  fst (DSA.verifyWithMessageHash Examples.sha1_abc "3006020100020101"
         (Examples.world Examples.key67 0)) =
  fst (DSA.verifyWithMessageHash Examples.sha1_abc "3006020100020101"
         (Examples.world
            (DSA.mkObject (Some 67) (Some 11) (Some 64) (Some 5) None "DSA"
               None (Some true)) 0)).
Proof.
  apply (verify_zero_r_ignores_y Examples.sha1_abc "3006020100020101"
           (Examples.world Examples.key67 0)
           (Examples.world
              (DSA.mkObject (Some 67) (Some 11) (Some 64) (Some 5) None "DSA"
                 None (Some true)) 0)
           67 11 64 40 5 1);
    reflexivity.
Defined.

(** ** From [setPrivate] to a verdict *)

(** X14: after [setPrivate] with five integers, [p > 0] and [q > 2], on a
    key object in any state, [signWithMessageHash] returns the container of
    a pair [(r, s)] with [0 <= r < q] and [0 <= s < q]; no other property of
    the five integers is needed.  [verifyWithMessageHash] on that container
    with the same object never throws it out as malformed or out of range:
    it returns a verdict, unless [s = 0] and [q] is odd, and then
    [s.modInverse(q)] does not return. *)
Theorem setPrivate_sign_verify_gives_verdict
    (sHashHex : string) (w : DSA.World) (pv qv gv yv xv : Z) :
  0 < pv -> 2 < qv -> Z.log2 qv < 2 ^ 100 ->
  let w1 := snd (DSA.setPrivate (Some pv) (Some qv) (Some gv) (Some yv) (Some xv) w) in
  exists r s,
    fst (DSA.signWithMessageHash sHashHex w1) =
      Ok (ASN1Util.jsonToASN1HEX (Jseq [Jint_bigint r; Jint_bigint s])) /\
    0 <= r < qv /\ 0 <= s < qv /\
    (s <> 0 \/ Z.odd qv = false ->
     exists b, Examples.sign_then_verify sHashHex w1 = Ok b) /\
    (s = 0 -> Z.odd qv = true ->
     Examples.sign_then_verify sHashHex w1 = NoReturn).
Proof.
  intros Hp0 Hq2 Hlog w1.
  assert (Hq : DSA.q (DSA.this w1) = Some qv) by reflexivity.
  unfold Examples.sign_then_verify.
  rewrite (sign_unfold _ _ _ Hq). unfold DSA.bind. rewrite getRandom_run.
  destruct (Z.ltb_spec (qv - 1) 2) as [| Hge]; [lia |].
  change (DSA.p (DSA.this w1)) with (Some pv).
  change (DSA.g (DSA.this w1)) with (Some gv).
  change (DSA.x (DSA.this w1)) with (Some xv).
  rewrite sign_with_k_run.
  set (k := 2 + entropy (DSA.random w1) (List.length (requests (DSA.random w1)))
                  mod (qv - 1 - 2 + 1)).
  destruct (modInverse_returns k qv) as [kinv ->];
    [left; now apply drawn_k_nonzero |].
  cbv beta iota zeta.
  remember (BigInteger.modPow gv k pv mod qv) as r eqn:Er.
  remember ((kinv * (DSA.sign_z qv sHashHex + xv * r)) mod qv) as s eqn:Es.
  assert (Hr : 0 <= r < qv) by (subst r; apply Z.mod_pos_bound; lia).
  assert (Hs : 0 <= s < qv) by (subst s; apply Z.mod_pos_bound; lia).
  exists r, s. split; [reflexivity |]. split; [lia |]. split; [lia |].
  assert (Hparse : forall w0,
             DSA.parseASN1Signature
               (ASN1Util.jsonToASN1HEX (Jseq [Jint_bigint r; Jint_bigint s])) w0 =
             (Ok (r, s), w0)).
  { intros w0.
    assert (Z.log2 r <= Z.log2 qv) by (apply Z.log2_le_mono; lia).
    assert (Z.log2 s <= Z.log2 qv) by (apply Z.log2_le_mono; lia).
    apply parse_encode; lia. }
  rewrite (verify_unfold _ _ _ r s) by (now rewrite Hparse).
  cbn [DSA.this].
  change (DSA.p (DSA.this w1)) with (Some pv).
  change (DSA.q (DSA.this w1)) with (Some qv).
  change (DSA.g (DSA.this w1)) with (Some gv).
  change (DSA.y (DSA.this w1)) with (Some yv).
  rewrite verify_rs_run. cbv [fst].
  destruct (Z.ltb_spec r 0); [lia |]. destruct (Z.ltb_spec qv r); [lia |].
  destruct (Z.ltb_spec s 0); [lia |]. destruct (Z.ltb_spec qv s); [lia |].
  cbv beta iota zeta delta [orb]. split.
  - intros Hinv. destruct (modInverse_returns s qv Hinv) as [winv ->].
    cbv beta iota zeta. eauto.
  - intros Hs0 Hodd. rewrite Hs0. now rewrite (modInverse_zero_odd qv Hodd).
Qed.


Lemma setPrivate_sign_verify_gives_verdict_witness :
  exists r s,
    fst (DSA.signWithMessageHash Examples.sha1_abc
           (snd (DSA.setPrivate (Some 23) (Some 11) (Some 2) (Some 8) (Some 3)
                   (Examples.world Examples.key67 1)))) =
      Ok (ASN1Util.jsonToASN1HEX (Jseq [Jint_bigint r; Jint_bigint s])) /\
    0 <= r < 11 /\ 0 <= s < 11 /\
    (s <> 0 \/ Z.odd 11 = false ->
     exists b,
       Examples.sign_then_verify Examples.sha1_abc
         (snd (DSA.setPrivate (Some 23) (Some 11) (Some 2) (Some 8) (Some 3)
                 (Examples.world Examples.key67 1))) = Ok b) /\
    (s = 0 -> Z.odd 11 = true ->
     Examples.sign_then_verify Examples.sha1_abc
       (snd (DSA.setPrivate (Some 23) (Some 11) (Some 2) (Some 8) (Some 3)
               (Examples.world Examples.key67 1))) = NoReturn).
Proof.
  apply (setPrivate_sign_verify_gives_verdict Examples.sha1_abc
           (Examples.world Examples.key67 1) 23 11 2 8 3);
    [lia | lia | vm_compute; reflexivity].
Defined.
